(** * VOLTTRON agent messaging socket: framing of (topic, headers, parts)

    A verification development for
    [volttron/platform/messaging/socket.py]: the four messaging methods
    of [Socket] ([send_message], [send_message_ex], [recv_message],
    [recv_message_ex]) are embedded as computations over an explicit
    socket state, on top of a model of the pyzmq calls they make. *)

From Stdlib Require Import ZArith String Ascii List Bool Lia.
From Stdlib.Strings Require Import Byte.
From Stdlib.Numbers Require Import DecimalString DecimalN DecimalFacts.
From stdpp Require Import base option list gmap strings.

(** ** Python values and exceptions *)

Definition bytes := list byte.

(** The Python values that travel through the socket methods.  A
    [VList] stands for any ordered sequence (list or tuple); a [VDict]
    keeps its items in insertion order.  A [string] is a text whose
    characters are the code points below U+0100. *)
#[warnings="-register-all"]
Inductive pyval :=
| VNone
| VBool (b : bool)
| VInt (n : Z)
| VStr (s : string)
| VBytes (b : bytes)
| VList (l : list pyval)
| VDict (d : list (string * pyval)).

Inductive exn :=
| TypeError
| ValueError
| IndexError
| UnicodeDecodeError
| JSONDecodeError
| Again.

(** [iter(v)]: the items Python yields when it iterates over [v]. *)
Definition py_iter (v : pyval) : exn + list pyval :=
  match v with
  | VList l => inr l
  | VStr s => inr (map (fun c => VStr (String c EmptyString)) (list_ascii_of_string s))
  | VBytes b => inr (map (fun x => VInt (Z.of_N (Byte.to_N x))) b)
  | VDict d => inr (map (fun kv => VStr (fst kv)) d)
  | VNone | VBool _ | VInt _ => inl TypeError
  end.

(** [zip( *rows )]: one tuple per column, for as long as every row
    still has an item; no rows at all give nothing.  The first row
    cannot outlast the fuel. *)
Fixpoint zip_columns (fuel : nat) (rows : list (list pyval)) : list (list pyval) :=
  match fuel with
  | O => []
  | S fuel' =>
      match mapM head rows with
      | Some col => col :: zip_columns fuel' (map tail rows)
      | None => []
      end
  end.

Definition zip_star (rows : list (list pyval)) : list (list pyval) :=
  match rows with
  | [] => []
  | row :: _ => zip_columns (length row) rows
  end.

(** The values [json.dumps] accepts are those without byte strings. *)
Fixpoint no_bytes (v : pyval) : bool :=
  match v with
  | VBytes _ => false
  | VList l => forallb no_bytes l
  | VDict d => forallb (fun kv => match kv with (_, x) => no_bytes x end) d
  | VNone | VBool _ | VInt _ | VStr _ => true
  end.

(** Every Python dict has pairwise distinct keys. *)
Fixpoint distinct_keys (v : pyval) : bool :=
  match v with
  | VList l => forallb distinct_keys l
  | VDict d =>
      bool_decide (NoDup (map fst d))
      && forallb (fun kv => match kv with (_, x) => distinct_keys x end) d
  | VNone | VBool _ | VInt _ | VStr _ | VBytes _ => true
  end.

(** A value of the object/array/scalar model: what [json.dumps] writes
    and [json.loads] gives back. *)
Definition jsonable (v : pyval) : bool := no_bytes v && distinct_keys v.

(** ** Text and structured-text codecs

    The codecs the socket consumes, given by their interface:
    [str.encode('utf-8')], [bytes.decode('utf-8')], [json.dumps] (as
    called by pyzmq's [send_json]) and [jsonapi.loads].  [None] is the
    exception the call raises.  Decoding gives back what was encoded,
    only the empty byte string decodes to the empty text, and a JSON
    text is never empty. *)
Class TextCodec := {
  utf8_encode : string -> bytes;
  utf8_decode : bytes -> option string;
  json_dumps : pyval -> option string;
  json_loads : string -> option pyval;
  utf8_decode_encode : forall s, utf8_decode (utf8_encode s) = Some s;
  utf8_decode_nil : utf8_decode [] = Some EmptyString;
  utf8_decode_empty : forall b, utf8_decode b = Some EmptyString -> b = [];
  json_loads_dumps : forall v, jsonable v = true ->
    exists s, json_dumps v = Some s /\ s <> EmptyString /\ json_loads s = Some v
}.

(** ** The transport: a ØMQ socket as a queue of frames *)

Record frame := Frame { payload : bytes; more : bool }.

(** [sent] holds the frames handed to the transport, oldest first;
    [pending] the frames that wait to be received; [rcvmore] is the
    [RCVMORE] socket option. *)
Record Socket := MkSocket {
  sent : list frame;
  pending : list frame;
  rcvmore : bool
}.

Definition NOBLOCK : Z := 1%Z.
Definition SNDMORE : Z := 2%Z.

(** A method call: it runs on a socket, leaves it in a new state, and
    returns a value or raises. *)
Definition M (A : Type) : Type := Socket -> (exn + A) * Socket.

#[global] Instance M_ret : MRet M := fun A a s => (inr a, s).
#[global] Instance M_bind : MBind M := fun A B f m s =>
  match m s with
  | (inl e, s') => (inl e, s')
  | (inr a, s') => f a s'
  end.

Definition raise {A} (e : exn) : M A := fun s => (inl e, s).

Definition lift {A} (r : exn + A) : M A := fun s => (r, s).

(** [zmq.Socket.send(data, flags)]: one more frame on the wire, marked
    "more" when [flags] has the [SNDMORE] bit. *)
Definition send (data : bytes) (flags : Z) : M unit := fun s =>
  (inr tt,
   MkSocket (sent s ++ [Frame data (Z.testbit flags 1)]) (pending s) (rcvmore s)).

(** [zmq.Socket.recv(flags)]: the next pending frame; with nothing
    pending the call cannot return a frame ([zmq.Again]). *)
Definition recv (flags : Z) : M bytes := fun s =>
  match pending s with
  | [] => (inl Again, s)
  | f :: q => (inr (payload f), MkSocket (sent s) q (more f))
  end.

Definition getsockopt_RCVMORE : M bool := fun s => (inr (rcvmore s), s).

Definition as_bytes (v : pyval) : option bytes :=
  match v with VBytes b => Some b | _ => None end.

Fixpoint send_parts (parts : list bytes) (flags : Z) : M unit :=
  match parts with
  | [] => raise IndexError
  | [part] => send part flags
  | part :: rest => _ ← send part (Z.lor SNDMORE flags); send_parts rest flags
  end.

(** [zmq.Socket.send_multipart(msg_parts, flags)]: every part is
    checked to be bytes-like first; then all but the last go out with
    [SNDMORE | flags] and the last with [flags]. *)
Definition send_multipart (msg_parts : list pyval) (flags : Z) : M unit :=
  match mapM as_bytes msg_parts with
  | None => raise TypeError
  | Some parts => send_parts parts flags
  end.

Fixpoint recv_while_more (fuel : nat) (flags : Z) : M (list bytes) :=
  match fuel with
  | O => mret []
  | S fuel' =>
      m ← getsockopt_RCVMORE;
      if (m : bool) then
        part ← recv flags;
        parts ← recv_while_more fuel' flags;
        mret (part :: parts)
      else mret []
  end.

(** [zmq.Socket.recv_multipart(flags)]: one frame, then frames while
    [RCVMORE] is set.  Every turn of the loop takes a pending frame, so
    one more turn than there are pending frames is never reached. *)
Definition recv_multipart (flags : Z) : M (list bytes) := fun s =>
  (part ← recv flags;
   parts ← recv_while_more (length (pending s)) flags;
   mret (part :: parts)) s.

(** The frames of one multipart message as they travel: every frame
    but the last is marked "more", and the last carries [last]. *)
Fixpoint mark (last : bool) (parts : list bytes) : list frame :=
  match parts with
  | [] => []
  | [part] => [Frame part last]
  | part :: rest => Frame part true :: mark last rest
  end.

(** A complete message: its last frame is not marked. *)
Definition message_frames (parts : list bytes) : list frame := mark false parts.

(** ** Headers *)

(** The canonical form of a header name: ASCII letters in lower case. *)
Definition ascii_lower (c : ascii) : ascii :=
  let n := N_of_ascii c in
  if ((65 <=? n) && (n <=? 90))%N then ascii_of_N (n + 32)%N else c.

Fixpoint canon (k : string) : string :=
  match k with
  | EmptyString => EmptyString
  | String c k' => String (ascii_lower c) (canon k')
  end.

Definition same_key (k1 k2 : string) : bool := String.eqb (canon k1) (canon k2).

(** Modelled from the spec: the [Headers] class of
    [volttron/platform/messaging/headers.py], which [socket.py] imports
    and which is not among the sources.  The spec describes it as an
    ordered mapping from case-preserved string keys to values, with
    case-insensitive lookup, an empty sequence as the value of an absent
    key, construction from a mapping and conversion back to one.  An
    entry keeps the spelling of the key that created it. *)
Record Headers := MkHeaders { items : list (string * pyval) }.

Definition Headers_empty : Headers := MkHeaders [].

Fixpoint set_item (l : list (string * pyval)) (k : string) (v : pyval)
  : list (string * pyval) :=
  match l with
  | [] => [(k, v)]
  | (k', v') :: l' =>
      if same_key k' k then (k', v) :: l' else (k', v') :: set_item l' k v
  end.

(** Modelled from the spec: [headers[k] = v]. *)
Definition Headers_setitem (h : Headers) (k : string) (v : pyval) : Headers :=
  MkHeaders (set_item (items h) k v).

(** Modelled from the spec: [headers[k]], the empty sequence when no
    entry has that name. *)
Definition Headers_getitem (h : Headers) (k : string) : pyval :=
  match find (fun kv => same_key (fst kv) k) (items h) with
  | Some (_, v) => v
  | None => VList []
  end.

(** Modelled from the spec: [Headers(mapping)]. *)
Definition Headers_new (d : list (string * pyval)) : Headers :=
  fold_left (fun h kv => Headers_setitem h (fst kv) (snd kv)) d Headers_empty.

(** Modelled from the spec: [headers.dict]. *)
Definition Headers_dict (h : Headers) : list (string * pyval) := items h.

(** Modelled from the spec: [Headers(v)] for a value that came out of
    [jsonapi.loads].  The spec defines the construction from a mapping
    only; any other value is refused. *)
Definition Headers_of_value (v : pyval) : exn + Headers :=
  match v with
  | VDict d => inr (Headers_new d)
  | _ => inl TypeError
  end.

(** What a caller may pass as [headers]: [None], a dict, or a [Headers]
    object. *)
Inductive headers_arg :=
| ANone
| ADict (d : list (string * pyval))
| AHeaders (h : Headers).

(** [bool(headers)]. *)
Definition truthy (a : headers_arg) : bool :=
  match a with
  | ANone => false
  | ADict [] => false
  | ADict (_ :: _) => true
  | AHeaders h => match items h with [] => false | _ :: _ => true end
  end.

(** [Headers(headers) if headers else Headers()]. *)
Definition Headers_or_empty (a : headers_arg) : Headers :=
  if truthy a then
    match a with
    | ANone => Headers_empty
    | ADict d => Headers_new d
    | AHeaders h => MkHeaders (items h)
    end
  else Headers_empty.

(** Headers hold one entry per name. *)
Definition canonical (l : list (string * pyval)) : Prop :=
  NoDup (map (fun kv => canon (fst kv)) l).

(** A well-formed (content-type, message) pair as the 2-tuple a caller
    passes. *)
Definition as_tuple (pair : string * bytes) : list pyval :=
  [VStr (fst pair); VBytes (snd pair)].

(** The frames a call added to the wire. *)
Definition new_frames (before after : Socket) : list frame :=
  drop (length (sent before)) (sent after).

Section Codec.
Context `{codec : TextCodec}.

(** [zmq.Socket.send_string(u, flags, encoding='utf-8')]. *)
Definition zmq_send_string (u : string) (flags : Z) : M unit :=
  send (utf8_encode u) flags.

(** [zmq.Socket.recv_string(flags, encoding='utf-8')]. *)
Definition recv_string (flags : Z) : M string :=
  b ← recv flags;
  match utf8_decode b with
  | Some u => mret u
  | None => raise UnicodeDecodeError
  end.

(** [zmq.Socket.send_json(obj, flags)]. *)
Definition send_json (obj : pyval) (flags : Z) : M unit :=
  match json_dumps obj with
  | Some text => send (utf8_encode text) flags
  | None => raise TypeError
  end.

(** [jsonapi.loads(s)]. *)
Definition jsonapi_loads (s : string) : M pyval :=
  match json_loads s with
  | Some v => mret v
  | None => raise JSONDecodeError
  end.

(** ** The messaging methods of [Socket] *)

Definition CONTENT_TYPE : string := "Content-Type".

(** [Socket.send_string]: the override only fixes [copy=True]. *)
Definition send_string (u : string) (flags : Z) : M unit :=
  zmq_send_string u flags.

Definition recv_message (flags : Z) : M (string * Headers * list bytes) :=
  topic ← recv_string flags;
  m ← getsockopt_RCVMORE;
  headers ← (if (m : bool) then recv_string flags else mret EmptyString);
  headers ← (if String.eqb headers EmptyString then mret (VDict []) else jsonapi_loads headers);
  m ← getsockopt_RCVMORE;
  message ← (if (m : bool) then recv_multipart flags else mret []);
  h ← lift (Headers_of_value headers);
  mret (topic, h, message).

Definition recv_message_ex (flags : Z) : M (string * Headers * list (pyval * bytes)) :=
  '(topic, headers, message) ← recv_message flags;
  types ← lift (py_iter (Headers_getitem headers CONTENT_TYPE));
  mret (topic, headers, zip types message).

Definition send_message (topic : string) (headers : headers_arg)
    (msg_parts : list pyval) (kwargs : gmap string Z) : M unit :=
  let flags := default 0%Z (kwargs !! "flags") in
  let kwargs := delete "flags" kwargs in
  if negb (bool_decide (kwargs = ∅)) then raise TypeError else
    let headers :=
      match headers with
      | AHeaders h => h
      | _ => Headers_or_empty headers
      end in
    let nonempty := match msg_parts with [] => false | _ :: _ => true end in
    _ ← send_string topic (Z.lor flags SNDMORE);
    _ ← send_json (VDict (Headers_dict headers))
          (Z.lor flags (if nonempty then SNDMORE else 0%Z));
    if nonempty then send_multipart msg_parts flags else mret tt.

Definition send_message_ex (topic : string) (headers : headers_arg)
    (msg_tuples : list (list pyval)) (kwargs : gmap string Z) : M unit :=
  let headers := Headers_or_empty headers in
  match zip_star msg_tuples with
  | [types; msg_parts] =>
      let headers := Headers_setitem headers CONTENT_TYPE (VList types) in
      send_message topic (ADict (Headers_dict headers)) msg_parts kwargs
  | _ => raise ValueError
  end.

(** What the text of the headers frame stands for. *)
Definition headers_value (text : string) : option pyval :=
  if String.eqb text EmptyString then Some (VDict []) else json_loads text.

(** The headers [send_message] serialises. *)
Definition headers_sent (headers : headers_arg) : Headers :=
  match headers with
  | AHeaders h => h
  | _ => Headers_or_empty headers
  end.

End Codec.

(** ** A reference codec

    UTF-8 on the code points below U+0100 (a byte sequence that encodes
    any other code point has no text in this model and is refused), and
    JSON texts over null, booleans, integers, strings, arrays and
    objects, written the way [json.dumps] writes them by default. *)
Module Reference.

(** *** UTF-8 *)

Definition byte_of_code (n : N) : byte :=
  match Byte.of_N n with Some b => b | None => x00 end.

Definition utf8_char (c : ascii) : bytes :=
  let n := N_of_ascii c in
  if (n <? 128)%N then [byte_of_code n]
  else [byte_of_code (192 + n / 64); byte_of_code (128 + n mod 64)].

Fixpoint encode (s : string) : bytes :=
  match s with
  | EmptyString => []
  | String c s' => utf8_char c ++ encode s'
  end.

Fixpoint decode (b : bytes) : option string :=
  match b with
  | [] => Some ""
  | x :: b' =>
      let n := Byte.to_N x in
      if (n <? 128)%N then String (ascii_of_N n) <$> decode b'
      else if ((n =? 194) || (n =? 195))%N then
        match b' with
        | y :: b'' =>
            let m := Byte.to_N y in
            if ((128 <=? m) && (m <? 192))%N
            then String (ascii_of_N ((n - 192) * 64 + (m - 128))) <$> decode b''
            else None
        | [] => None
        end
      else None
  end.

(** *** Writing JSON *)

Definition dquote : ascii := "034"%char.
Definition backslash : ascii := "092"%char.

Definition hex_char (n : N) : ascii :=
  match n with
  | 0 => "0" | 1 => "1" | 2 => "2" | 3 => "3" | 4 => "4" | 5 => "5"
  | 6 => "6" | 7 => "7" | 8 => "8" | 9 => "9" | 10 => "a" | 11 => "b"
  | 12 => "c" | 13 => "d" | 14 => "e" | _ => "f"
  end%N%char.

Definition hex_val (c : ascii) : option N :=
  let n := N_of_ascii c in
  if ((48 <=? n) && (n <=? 57))%N then Some (n - 48)%N
  else if ((97 <=? n) && (n <=? 102))%N then Some (n - 87)%N
  else if ((65 <=? n) && (n <=? 70))%N then Some (n - 55)%N
  else None.

(** One character of a string literal, as [json.dumps] writes it with
    [ensure_ascii]. *)
Definition escape (c : ascii) : string :=
  let n := N_of_ascii c in
  if Ascii.eqb c dquote then String backslash (String dquote "")
  else if Ascii.eqb c backslash then String backslash (String backslash "")
  else if (n =? 8)%N then String backslash "b"
  else if (n =? 9)%N then String backslash "t"
  else if (n =? 10)%N then String backslash "n"
  else if (n =? 12)%N then String backslash "f"
  else if (n =? 13)%N then String backslash "r"
  else if ((n <? 32) || (126 <? n))%N then
    String backslash
      (String "u" (String "0" (String "0"
         (String (hex_char (n / 16)) (String (hex_char (n mod 16)) "")))))
  else String c "".

Fixpoint quote_chars (s : string) : string :=
  match s with
  | EmptyString => String dquote ""
  | String c s' => escape c +:+ quote_chars s'
  end.

Definition quote (s : string) : string := String dquote (quote_chars s).

Definition digits (n : N) : string := NilEmpty.string_of_uint (N.to_uint n).

Definition text_int (z : Z) : string :=
  if (z <? 0)%Z then String "-" (digits (Z.abs_N z)) else digits (Z.abs_N z).

Fixpoint items_with (f : pyval -> string) (l : list pyval) : string :=
  match l with
  | [] => "]"
  | x :: l' => ", " +:+ f x +:+ items_with f l'
  end.

Fixpoint members_with (f : pyval -> string) (d : list (string * pyval)) : string :=
  match d with
  | [] => "}"
  | (k, x) :: d' => ", " +:+ quote k +:+ ": " +:+ f x +:+ members_with f d'
  end.

(** The text [json.dumps] writes (default separators).  A byte string
    has none: [dumps] below refuses it. *)
Fixpoint text (v : pyval) : string :=
  match v with
  | VNone => "null"
  | VBool true => "true"
  | VBool false => "false"
  | VInt z => text_int z
  | VStr s => quote s
  | VBytes _ => ""
  | VList [] => "[]"
  | VList (x :: l) => "[" +:+ text x +:+ items_with text l
  | VDict [] => "{}"
  | VDict ((k, x) :: d) => "{" +:+ quote k +:+ ": " +:+ text x +:+ members_with text d
  end.

(** [json.dumps(v)], a [TypeError] on a value that holds a byte
    string. *)
Definition dumps (v : pyval) : option string :=
  if no_bytes v then Some (text v) else None.

(** *** Reading *)

Definition is_ws (c : ascii) : bool :=
  let n := N_of_ascii c in ((n =? 32) || (n =? 9) || (n =? 10) || (n =? 13))%N.

Fixpoint skip_ws (s : string) : string :=
  match s with
  | String c r => if is_ws c then skip_ws r else s
  | EmptyString => s
  end.

Definition unescape (e : ascii) : option ascii :=
  if Ascii.eqb e dquote then Some dquote
  else if Ascii.eqb e backslash then Some backslash
  else if Ascii.eqb e "/" then Some "/"%char
  else if Ascii.eqb e "b" then Some "008"%char
  else if Ascii.eqb e "t" then Some "009"%char
  else if Ascii.eqb e "n" then Some "010"%char
  else if Ascii.eqb e "f" then Some "012"%char
  else if Ascii.eqb e "r" then Some "013"%char
  else None.

Definition hex4 (a b c d : ascii) : option N :=
  x ← hex_val a; y ← hex_val b; z ← hex_val c; w ← hex_val d;
  Some (((x * 16 + y) * 16 + z) * 16 + w)%N.

Definition push (c : ascii) (r : option (string * string)) : option (string * string) :=
  match r with
  | Some (x, rest) => Some (String c x, rest)
  | None => None
  end.

(** The characters of a string literal up to its closing quote. *)
Fixpoint parse_chars (s : string) : option (string * string) :=
  match s with
  | EmptyString => None
  | String c r =>
      if Ascii.eqb c dquote then Some (EmptyString, r)
      else if Ascii.eqb c backslash then
        match r with
        | EmptyString => None
        | String e r1 =>
            if Ascii.eqb e "u" then
              match r1 with
              | String h1 (String h2 (String h3 (String h4 r2))) =>
                  match hex4 h1 h2 h3 h4 with
                  | Some n => if (n <? 256)%N then push (ascii_of_N n) (parse_chars r2) else None
                  | None => None
                  end
              | _ => None
              end
            else
              match unescape e with
              | Some c' => push c' (parse_chars r1)
              | None => None
              end
        end
      else if (N_of_ascii c <? 32)%N then None
      else push c (parse_chars r)
  end.

Definition digit_of (c : ascii) : option (Decimal.uint -> Decimal.uint) :=
  match N_of_ascii c with
  | 48 => Some Decimal.D0 | 49 => Some Decimal.D1 | 50 => Some Decimal.D2
  | 51 => Some Decimal.D3 | 52 => Some Decimal.D4 | 53 => Some Decimal.D5
  | 54 => Some Decimal.D6 | 55 => Some Decimal.D7 | 56 => Some Decimal.D8
  | 57 => Some Decimal.D9 | _ => None
  end%N.

Fixpoint read_uint (s : string) : Decimal.uint * string :=
  match s with
  | EmptyString => (Decimal.Nil, s)
  | String c r =>
      match digit_of c with
      | Some d => let '(u, r') := read_uint r in (d u, r')
      | None => (Decimal.Nil, s)
      end
  end.

(** What may follow an integer: anything but a digit, a fraction or an
    exponent. *)
Definition number_stop (s : string) : bool :=
  match s with
  | EmptyString => true
  | String c _ =>
      match digit_of c with
      | Some _ => false
      | None => negb (Ascii.eqb c "." || Ascii.eqb c "e" || Ascii.eqb c "E")
      end
  end.

Definition parse_nat (s : string) : option (N * string) :=
  let '(u, r) := read_uint s in
  if Decimal.uint_eq_dec (Decimal.unorm u) u then
    if number_stop r then Some (N.of_uint u, r) else None
  else None.

Fixpoint strip_prefix (p s : string) : option string :=
  match p with
  | EmptyString => Some s
  | String a p' =>
      match s with
      | String b s' => if Ascii.eqb a b then strip_prefix p' s' else None
      | EmptyString => None
      end
  end.

Definition expect (c : ascii) (s : string) : option string :=
  match skip_ws s with
  | String c' r => if Ascii.eqb c' c then Some r else None
  | EmptyString => None
  end.

Definition parse_key (s : string) : option (string * string) :=
  r ← expect dquote s;
  '(k, r1) ← parse_chars r;
  r2 ← expect ":" r1;
  Some (k, r2).

Fixpoint set_key (d : list (string * pyval)) (k : string) (v : pyval)
  : list (string * pyval) :=
  match d with
  | [] => [(k, v)]
  | (k', v') :: d' =>
      if String.eqb k' k then (k', v) :: d' else (k', v') :: set_key d' k v
  end.

(** The dict built from the members of an object, a later member
    replacing the value of an earlier one with the same key. *)
Definition dict_of (ms : list (string * pyval)) : list (string * pyval) :=
  fold_left (fun d kv => set_key d (fst kv) (snd kv)) ms [].

Fixpoint parse_value (fuel : nat) (s : string) : option (pyval * string) :=
  match fuel with
  | O => None
  | S fuel =>
      match skip_ws s with
      | EmptyString => None
      | String c r =>
          if Ascii.eqb c dquote then
            '(x, r1) ← parse_chars r; Some (VStr x, r1)
          else if Ascii.eqb c "[" then
            match expect "]" r with
            | Some r1 => Some (VList [], r1)
            | None =>
                '(x, r1) ← parse_value fuel r;
                '(xs, r2) ← parse_items fuel r1;
                Some (VList (x :: xs), r2)
            end
          else if Ascii.eqb c "{" then
            match expect "}" r with
            | Some r1 => Some (VDict [], r1)
            | None =>
                '(k, r1) ← parse_key r;
                '(x, r2) ← parse_value fuel r1;
                '(ms, r3) ← parse_members fuel r2;
                Some (VDict (dict_of ((k, x) :: ms)), r3)
            end
          else if Ascii.eqb c "-" then
            '(n, r1) ← parse_nat r; Some (VInt (- Z.of_N n), r1)
          else if bool_decide (is_Some (digit_of c)) then
            '(n, r1) ← parse_nat (String c r); Some (VInt (Z.of_N n), r1)
          else
            match strip_prefix "null" (String c r) with
            | Some r1 => Some (VNone, r1)
            | None =>
                match strip_prefix "true" (String c r) with
                | Some r1 => Some (VBool true, r1)
                | None =>
                    match strip_prefix "false" (String c r) with
                    | Some r1 => Some (VBool false, r1)
                    | None => None
                    end
                end
            end
      end
  end
with parse_items (fuel : nat) (s : string) : option (list pyval * string) :=
  match fuel with
  | O => None
  | S fuel =>
      match expect "]" s with
      | Some r => Some ([], r)
      | None =>
          r ← expect "," s;
          '(x, r1) ← parse_value fuel r;
          '(xs, r2) ← parse_items fuel r1;
          Some (x :: xs, r2)
      end
  end
with parse_members (fuel : nat) (s : string) : option (list (string * pyval) * string) :=
  match fuel with
  | O => None
  | S fuel =>
      match expect "}" s with
      | Some r => Some ([], r)
      | None =>
          r ← expect "," s;
          '(k, r1) ← parse_key r;
          '(x, r2) ← parse_value fuel r1;
          '(ms, r3) ← parse_members fuel r2;
          Some ((k, x) :: ms, r3)
      end
  end.

(** [json.loads(s)]: one value, with nothing but blanks after it. *)
Definition loads (s : string) : option pyval :=
  '(v, r) ← parse_value (S (String.length s)) s;
  match skip_ws r with
  | EmptyString => Some v
  | String _ _ => None
  end.

(** The first character of a value's text: no blank, no bracket that
    closes, no comma. *)
Definition starts_value (s : string) : bool :=
  match s with
  | EmptyString => false
  | String c _ =>
      negb (is_ws c) && negb (Ascii.eqb c "]") && negb (Ascii.eqb c "}")
      && negb (Ascii.eqb c ",")
  end.

End Reference.

(** ** Sample messages *)

Definition socket0 : Socket := MkSocket [] [] false.

Definition ascii_bytes (s : string) : bytes := list_byte_of_string s.

(** A socket on which the given frames wait to be received. *)
Definition inbox (frames : list frame) : Socket := MkSocket [] frames false.

(** A string literal of a JSON text. *)
Definition quoted (s : string) : string :=
  String Reference.dquote (s +:+ String Reference.dquote EmptyString).

(** The JSON text of an object with the one member Content-Type. *)
Definition content_type_object (value : string) : string :=
  "{" +:+ quoted "Content-Type" +:+ ": " +:+ value +:+ "}".

Definition sample_headers : list (string * pyval) :=
  [("X-Source", VStr "sensor"); ("Content-Type", VList [VStr "text/plain"])].

(** A message with one content type and two parts. *)
Definition one_type_two_parts : Socket :=
  inbox
    [Frame (ascii_bytes "t") true;
     Frame (ascii_bytes (content_type_object ("[" +:+ quoted "text/plain" +:+ "]"))) true;
     Frame (ascii_bytes "x") true;
     Frame (ascii_bytes "y") false].

(** A message whose Content-Type header is the number 5. *)
Definition numeric_content_type : Socket :=
  inbox
    [Frame (ascii_bytes "t") true;
     Frame (ascii_bytes (content_type_object "5")) true;
     Frame (ascii_bytes "x") false].

(** * Proofs *)

(** ** Running computations *)

Lemma run_bind {A B} (m : M A) (f : A -> M B) (s : Socket) :
  (m ≫= f) s =
  match m s with
  | (inl e, s') => (inl e, s')
  | (inr a, s') => f a s'
  end.
Proof. reflexivity. Qed.

Lemma run_ret {A} (a : A) (s : Socket) : (mret a : M A) s = (inr a, s).
Proof. reflexivity. Qed.

(** Reading [self.rcvmore]: the next step of a computation asks for the
    option, and the socket at hand answers. *)
Ltac read_rcvmore := rewrite run_bind; cbn [getsockopt_RCVMORE rcvmore].

Lemma testbit_sndmore flags : Z.testbit (Z.lor SNDMORE flags) 1 = true.
Proof. now rewrite Z.lor_spec. Qed.

Lemma testbit_or_sndmore flags : Z.testbit (Z.lor flags SNDMORE) 1 = true.
Proof. rewrite Z.lor_spec. apply orb_true_r. Qed.

Lemma testbit_or_zero flags : Z.testbit (Z.lor flags 0) 1 = Z.testbit flags 1.
Proof. now rewrite Z.lor_0_r. Qed.

Lemma mark_cons last p p' rest :
  mark last (p :: p' :: rest) = Frame p true :: mark last (p' :: rest).
Proof. reflexivity. Qed.

Lemma mark_length last parts : length (mark last parts) = length parts.
Proof.
  induction parts as [|p [|p' rest] IH]; [reflexivity..|].
  rewrite mark_cons. cbn [length]. now rewrite IH.
Qed.

Lemma mark_last last parts :
  parts <> [] -> more <$> list.last (mark last parts) = Some last.
Proof.
  induction parts as [|p [|p' rest] IH]; intros Hne; [congruence|reflexivity|].
  rewrite mark_cons. rewrite last_cons.
  destruct (list.last (mark last (p' :: rest))) eqn:E.
  - apply IH. discriminate.
  - specialize (IH ltac:(discriminate)). discriminate IH.
Qed.

(** ** Sending and receiving multipart messages *)

Lemma send_parts_spec parts flags s :
  parts <> [] ->
  send_parts parts flags s =
  (inr tt,
   MkSocket (sent s ++ mark (Z.testbit flags 1) parts) (pending s) (rcvmore s)).
Proof.
  revert s. induction parts as [|p [|p' rest] IH]; intros s Hne; [congruence|reflexivity|].
  rewrite mark_cons.
  change (send_parts (p :: p' :: rest) flags)
    with (send p (Z.lor SNDMORE flags) ≫= fun _ => send_parts (p' :: rest) flags).
  rewrite run_bind. unfold send at 1. rewrite testbit_sndmore.
  rewrite IH by discriminate. cbn [sent pending rcvmore].
  now rewrite <- app_assoc.
Qed.

Lemma mapM_as_bytes (P : list bytes) : mapM as_bytes (map VBytes P) = Some P.
Proof.
  induction P as [|p P IH]; [reflexivity|].
  cbn. now rewrite IH.
Qed.

Lemma send_multipart_spec (P : list bytes) flags s :
  P <> [] ->
  send_multipart (map VBytes P) flags s =
  (inr tt, MkSocket (sent s ++ mark (Z.testbit flags 1) P) (pending s) (rcvmore s)).
Proof.
  intros Hne. unfold send_multipart. rewrite mapM_as_bytes.
  now apply send_parts_spec.
Qed.

Lemma recv_while_more_done fuel flags s :
  rcvmore s = false -> recv_while_more fuel flags s = (inr [], s).
Proof.
  intros Hm. destruct fuel; [reflexivity|].
  cbn [recv_while_more]. rewrite run_bind. unfold getsockopt_RCVMORE.
  now rewrite Hm.
Qed.

(** The loop never runs out of fuel: any two amounts above the number
    of pending frames give the same result. *)
Lemma recv_while_more_fuel flags :
  forall (n m : nat) s,
    length (pending s) < n -> length (pending s) < m ->
    recv_while_more n flags s = recv_while_more m flags s.
Proof.
  induction n as [|n IH]; intros m s Hn Hm; [lia|].
  destruct m as [|m]; [lia|].
  cbn [recv_while_more]. rewrite !run_bind. cbn [getsockopt_RCVMORE].
  destruct (rcvmore s); [|reflexivity].
  rewrite !run_bind. unfold recv.
  destruct s as [snt [|f q] rm]; [reflexivity|].
  cbn [pending sent length] in *. rewrite !run_bind.
  rewrite (IH m (MkSocket snt q (more f))); [reflexivity | cbn; lia | cbn; lia].
Qed.

(** Enough fuel: the loop returns the rest of the message, whatever is
    queued behind it. *)
Lemma recv_while_more_spec flags parts :
  forall (fuel : nat) snt q,
    parts <> [] -> length parts <= fuel ->
    recv_while_more fuel flags (MkSocket snt (message_frames parts ++ q) true) =
    (inr parts, MkSocket snt q false).
Proof.
  unfold message_frames.
  induction parts as [|p [|p' rest] IH]; intros fuel snt q Hne Hfuel; [congruence| |].
  - destruct fuel as [|fuel]; [simpl in Hfuel; lia|].
    cbn [recv_while_more]. read_rcvmore.
    rewrite run_bind. cbn [recv pending mark app more payload sent].
    rewrite run_bind. rewrite recv_while_more_done by reflexivity. reflexivity.
  - destruct fuel as [|fuel]; [simpl in Hfuel; lia|].
    rewrite mark_cons.
    cbn [recv_while_more]. read_rcvmore.
    rewrite run_bind. cbn [recv pending app more payload sent].
    rewrite run_bind. rewrite IH; [reflexivity|discriminate|simpl in *; lia].
Qed.

Lemma recv_multipart_spec flags p parts s q :
  pending s = message_frames (p :: parts) ++ q ->
  recv_multipart flags s = (inr (p :: parts), MkSocket (sent s) q false).
Proof.
  intros Hp. unfold recv_multipart. rewrite run_bind. unfold recv at 1.
  rewrite Hp. unfold message_frames. destruct parts as [|p' rest].
  - cbn [mark app payload more]. rewrite run_bind.
    rewrite recv_while_more_done by reflexivity. reflexivity.
  - rewrite mark_cons. cbn [app payload more]. rewrite run_bind.
    rewrite (recv_while_more_spec flags (p' :: rest)); [reflexivity|discriminate|].
    cbn [length]. rewrite length_app, mark_length. cbn [length]. lia.
Qed.

(** ** Headers keep one entry per name *)

Lemma same_key_true k1 k2 : same_key k1 k2 = true <-> canon k1 = canon k2.
Proof. apply String.eqb_eq. Qed.

Lemma same_key_false k1 k2 : same_key k1 k2 = false <-> canon k1 <> canon k2.
Proof. apply String.eqb_neq. Qed.

Lemma set_item_names l k v :
  map (fun kv => canon (fst kv)) (set_item l k v) =
  if bool_decide (canon k ∈ map (fun kv => canon (fst kv)) l)
  then map (fun kv => canon (fst kv)) l
  else map (fun kv => canon (fst kv)) l ++ [canon k].
Proof.
  induction l as [|[k' v'] l IH]; [reflexivity|].
  cbn [set_item map fst]. destruct (same_key k' k) eqn:E.
  - apply same_key_true in E. rewrite bool_decide_eq_true_2; [reflexivity|].
    rewrite E. left.
  - apply same_key_false in E. cbn [map fst]. rewrite IH.
    destruct (bool_decide (canon k ∈ map _ l)) eqn:D.
    + apply bool_decide_eq_true in D.
      rewrite bool_decide_eq_true_2; [reflexivity | now right].
    + apply bool_decide_eq_false in D.
      rewrite bool_decide_eq_false_2; [reflexivity|].
      rewrite elem_of_cons. intros [?|?]; congruence.
Qed.

Lemma set_item_canonical l k v : canonical l -> canonical (set_item l k v).
Proof.
  unfold canonical. intros Hl. rewrite set_item_names.
  destruct (bool_decide _) eqn:D; [assumption|].
  apply bool_decide_eq_false in D. apply NoDup_app. split; [assumption|].
  split; [|apply NoDup_singleton].
  intros x Hx ->%list_elem_of_singleton. contradiction.
Qed.

Lemma set_item_fresh l k v :
  canon k ∉ map (fun kv => canon (fst kv)) l -> set_item l k v = l ++ [(k, v)].
Proof.
  induction l as [|[k' v'] l IH]; intros Hk; [reflexivity|].
  cbn [map fst] in Hk. rewrite not_elem_of_cons in Hk. destruct Hk as [Hne Hk].
  cbn [set_item]. destruct (same_key k' k) eqn:E.
  - apply same_key_true in E. congruence.
  - now rewrite IH.
Qed.

Lemma set_item_values (Q : pyval -> Prop) l k v :
  Q v -> Forall (fun kv => Q (snd kv)) l ->
  Forall (fun kv => Q (snd kv)) (set_item l k v).
Proof.
  intros Hv. induction 1 as [|[k' v'] l Hx Hl IH]; cbn [set_item].
  - now repeat constructor.
  - destruct (same_key k' k); constructor; assumption.
Qed.

Lemma fold_setitem_items d h :
  items (fold_left (fun h kv => Headers_setitem h (fst kv) (snd kv)) d h) =
  fold_left (fun l kv => set_item l (fst kv) (snd kv)) d (items h).
Proof.
  revert h. induction d as [|[k v] d IH]; intros h; [reflexivity|].
  cbn [fold_left]. now rewrite IH.
Qed.

Lemma fold_set_item_canonical d l :
  canonical l ->
  canonical (fold_left (fun l kv => set_item l (fst kv) (snd kv)) d l).
Proof.
  revert l. induction d as [|[k v] d IH]; intros l Hl; [assumption|].
  cbn [fold_left]. apply IH. now apply set_item_canonical.
Qed.

Lemma fold_set_item_values (Q : pyval -> Prop) d l :
  Forall (fun kv => Q (snd kv)) d -> Forall (fun kv => Q (snd kv)) l ->
  Forall (fun kv => Q (snd kv))
    (fold_left (fun l kv => set_item l (fst kv) (snd kv)) d l).
Proof.
  intros Hd. revert l. induction Hd as [|[k v] d Hv Hd IH]; intros l Hl; [assumption|].
  cbn [fold_left]. apply IH. now apply set_item_values.
Qed.

Lemma fold_set_item_id d l :
  canonical (l ++ d) ->
  fold_left (fun l kv => set_item l (fst kv) (snd kv)) d l = l ++ d.
Proof.
  revert l. induction d as [|[k v] d IH]; intros l Hc.
  - now rewrite app_nil_r.
  - cbn [fold_left fst snd]. rewrite set_item_fresh.
    + rewrite IH; rewrite <- app_assoc; [reflexivity | exact Hc].
    + unfold canonical in Hc. rewrite map_app in Hc.
      apply NoDup_app in Hc as (_ & Hd & _).
      intros Hin. apply (Hd _ Hin). left.
Qed.

Lemma Headers_new_canonical d : canonical (items (Headers_new d)).
Proof.
  unfold Headers_new. rewrite fold_setitem_items.
  apply fold_set_item_canonical. constructor.
Qed.

Create HintDb headers.
#[global] Hint Resolve set_item_canonical Headers_new_canonical : headers.

(** Rebuilding headers from their own items changes nothing. *)
Lemma Headers_new_items h : canonical (items h) -> Headers_new (items h) = h.
Proof.
  intros Hc. destruct h as [l]. cbn [items] in *.
  assert (items (Headers_new l) = l) as E.
  { unfold Headers_new. rewrite fold_setitem_items. now apply (fold_set_item_id l []). }
  destruct (Headers_new l). cbn [items] in E. now rewrite E.
Qed.

Lemma canonical_distinct l : canonical l -> NoDup (map fst l).
Proof.
  unfold canonical. intros Hc.
  apply (NoDup_fmap_1 canon). now rewrite <- list_fmap_compose.
Qed.

Lemma jsonable_dict d :
  jsonable (VDict d) = true <->
  NoDup (map fst d) /\ Forall (fun kv => jsonable (snd kv) = true) d.
Proof.
  unfold jsonable. cbn [no_bytes distinct_keys].
  rewrite !andb_true_iff, bool_decide_eq_true, !forallb_forall, Forall_forall.
  split.
  - intros (Hb & Hnd & Hk). split; [assumption|].
    intros [k v] Hin. apply list_elem_of_In in Hin.
    specialize (Hb _ Hin). specialize (Hk _ Hin). cbn in *. now rewrite Hb, Hk.
  - intros (Hnd & Hv). repeat split; [|assumption|].
    + intros [k v] Hin. apply list_elem_of_In, Hv in Hin.
      cbn in Hin. now apply andb_true_iff in Hin.
    + intros [k v] Hin. apply list_elem_of_In, Hv in Hin.
      cbn in Hin. now apply andb_true_iff in Hin.
Qed.

Lemma jsonable_Headers_new d :
  jsonable (VDict d) = true -> jsonable (VDict (Headers_dict (Headers_new d))) = true.
Proof.
  rewrite !jsonable_dict. intros [_ Hv]. unfold Headers_dict. split.
  - apply canonical_distinct, Headers_new_canonical.
  - unfold Headers_new. rewrite fold_setitem_items.
    apply (fold_set_item_values (fun v => jsonable v = true)); [assumption|constructor].
Qed.

Lemma jsonable_Headers_setitem h k v :
  canonical (items h) -> jsonable (VDict (Headers_dict h)) = true ->
  jsonable v = true ->
  jsonable (VDict (Headers_dict (Headers_setitem h k v))) = true.
Proof.
  rewrite !jsonable_dict. intros Hc [_ Hv] Hj. unfold Headers_dict. split.
  - apply canonical_distinct. now apply set_item_canonical.
  - now apply (set_item_values (fun v => jsonable v = true)).
Qed.

Lemma Headers_or_empty_dict d : Headers_or_empty (ADict d) = Headers_new d.
Proof. destruct d; reflexivity. Qed.

(** ** Decoding a message *)

Section Decode.
Context `{codec : TextCodec}.

Lemma recv_string_spec flags s b m q u :
  pending s = Frame b m :: q -> utf8_decode b = Some u ->
  recv_string flags s = (inr u, MkSocket (sent s) q m).
Proof.
  intros Hp Hu. unfold recv_string. rewrite run_bind. unfold recv.
  rewrite Hp. cbn [payload more]. now rewrite Hu.
Qed.

Lemma recv_string_undecodable flags s b m q :
  pending s = Frame b m :: q -> utf8_decode b = None ->
  recv_string flags s = (inl UnicodeDecodeError, MkSocket (sent s) q m).
Proof.
  intros Hp Hu. unfold recv_string. rewrite run_bind. unfold recv.
  rewrite Hp. cbn [payload more]. now rewrite Hu.
Qed.

Lemma recv_message_topic_only flags r t q T :
  pending r = Frame t false :: q -> utf8_decode t = Some T ->
  recv_message flags r = (inr (T, Headers_empty, []), MkSocket (sent r) q false).
Proof.
  intros Hp Ht. unfold recv_message.
  rewrite run_bind, (recv_string_spec _ _ _ _ _ _ Hp Ht).
  reflexivity.
Qed.

(** The headers frame [h] is reached whenever the topic frame is
    marked; what follows only depends on [h] being read. *)
Lemma recv_message_headers_frame flags r t h m q T :
  pending r = Frame t true :: Frame h m :: q -> utf8_decode t = Some T ->
  recv_message flags r =
  match utf8_decode h with
  | None => (inl UnicodeDecodeError, MkSocket (sent r) q m)
  | Some text =>
      (headers ← (if String.eqb text EmptyString then mret (VDict [])
                  else jsonapi_loads text);
       m ← getsockopt_RCVMORE;
       message ← (if (m : bool) then recv_multipart flags else mret []);
       hd ← lift (Headers_of_value headers);
       mret (T, hd, message)) (MkSocket (sent r) q m)
  end.
Proof.
  intros Hp Ht. unfold recv_message.
  rewrite run_bind, (recv_string_spec _ _ _ _ _ _ Hp Ht).
  read_rcvmore.
  rewrite run_bind.
  destruct (utf8_decode h) as [text|] eqn:Hh.
  - now rewrite (recv_string_spec flags (MkSocket (sent r) (Frame h m :: q) true)
               h m q text eq_refl Hh).
  - now rewrite (recv_string_undecodable flags (MkSocket (sent r) (Frame h m :: q) true)
               h m q eq_refl Hh).
Qed.

Lemma recv_message_spec flags r t h P q T text v hd :
  pending r = message_frames (t :: h :: P) ++ q ->
  utf8_decode t = Some T -> utf8_decode h = Some text ->
  headers_value text = Some v -> Headers_of_value v = inr hd ->
  recv_message flags r = (inr (T, hd, P), MkSocket (sent r) q false).
Proof.
  intros Hp Ht Hh Hv Hhd.
  assert (Hloads :
    forall s, (if String.eqb text EmptyString then mret (VDict []) else jsonapi_loads text) s
              = (inr v, s)).
  { intros s. unfold headers_value, jsonapi_loads in *.
    destruct (String.eqb text EmptyString); [now inversion Hv | now rewrite Hv]. }
  destruct P as [|p P].
  - rewrite (recv_message_headers_frame flags r t h false q T Hp Ht), Hh.
    rewrite run_bind, Hloads. read_rcvmore.
    rewrite run_bind, run_ret, run_bind. unfold lift. now rewrite Hhd.
  - assert (pending r = Frame t true :: Frame h true :: message_frames (p :: P) ++ q)
      as Hp' by (rewrite Hp; reflexivity).
    rewrite (recv_message_headers_frame flags r t h true _ T Hp' Ht), Hh.
    rewrite run_bind, Hloads. read_rcvmore.
    rewrite run_bind.
    rewrite (recv_multipart_spec flags p P
               (MkSocket (sent r) (message_frames (p :: P) ++ q) true) q eq_refl).
    rewrite run_bind. unfold lift. now rewrite Hhd.
Qed.

End Decode.

(** ** Encoding a message *)

Section Encode.
Context `{codec : TextCodec}.

Lemma send_message_spec topic headers (P : list bytes) (kwargs : gmap string Z) s text :
  delete "flags" kwargs = ∅ ->
  json_dumps (VDict (Headers_dict (headers_sent headers))) = Some text ->
  send_message topic headers (map VBytes P) kwargs s =
  (inr tt,
   MkSocket
     (sent s ++
      Frame (utf8_encode topic) true
      :: mark (Z.testbit (default 0%Z (kwargs !! "flags")) 1) (utf8_encode text :: P))
     (pending s) (rcvmore s)).
Proof.
  intros Hkw Htext. unfold send_message. rewrite Hkw.
  rewrite bool_decide_eq_true_2 by reflexivity. cbn [negb].
  fold (headers_sent headers).
  set (flags := default 0%Z (kwargs !! "flags")).
  rewrite run_bind. unfold send_string, zmq_send_string, send at 1.
  rewrite testbit_or_sndmore.
  rewrite run_bind. unfold send_json. rewrite Htext. unfold send at 1.
  cbn [sent pending rcvmore].
  destruct P as [|p P].
  - cbn [map]. rewrite testbit_or_zero, run_ret. cbn [mark].
    now rewrite <- app_assoc.
  - cbn [map]. rewrite testbit_or_sndmore.
    change (VBytes p :: map VBytes P) with (map VBytes (p :: P)).
    rewrite (send_multipart_spec (p :: P)) by discriminate.
    cbn [sent pending rcvmore]. rewrite mark_cons.
    now rewrite <- !app_assoc.
Qed.

Lemma send_message_unexpected_keyword topic headers msg_parts (kwargs : gmap string Z) s :
  delete "flags" kwargs <> ∅ ->
  send_message topic headers msg_parts kwargs s = (inl TypeError, s).
Proof.
  intros Hkw. unfold send_message.
  now rewrite bool_decide_eq_false_2 by assumption.
Qed.

End Encode.

(** ** Unzipping the (content-type, message) tuples *)

Lemma mapM_head_Some (rows : list (list pyval)) (col : list pyval) :
  mapM head rows = Some col -> Forall (fun row => 0 < length row) rows.
Proof.
  revert col. induction rows as [|row rows IH]; intros col Hm; [constructor|].
  cbn in Hm. destruct row as [|x row]; [discriminate|].
  cbn in Hm. destruct (mapM head rows) as [col'|] eqn:E; [|discriminate].
  constructor; [simpl; lia | eapply IH; reflexivity].
Qed.

Lemma mapM_head_nonempty (rows : list (list pyval)) :
  Forall (fun row => 0 < length row) rows -> is_Some (mapM head rows).
Proof.
  induction 1 as [|row rows Hrow _ IH]; [now eexists|].
  destruct row as [|x row]; [simpl in Hrow; lia|].
  destruct IH as [col Hcol]. cbn. rewrite Hcol. now eexists.
Qed.

(** A row with at most [n] items leaves at most [n] columns. *)
Lemma zip_columns_short fuel :
  forall n (rows : list (list pyval)),
    Exists (fun row => length row <= n) rows ->
    length (zip_columns fuel rows) <= n.
Proof.
  induction fuel as [|fuel IH]; intros n rows Hex; [simpl; lia|].
  cbn [zip_columns]. destruct (mapM head rows) as [col|] eqn:E; [|simpl; lia].
  apply mapM_head_Some in E. cbn [length].
  assert (Exists (fun row => 0 < n /\ length row <= n - 1) (map tail rows)) as Hex'.
  { clear IH. induction Hex as [row rows Hrow | row rows _ IHex].
    - apply Forall_cons in E as [Hpos _]. constructor 1.
      destruct row; simpl in *; lia.
    - apply Forall_cons in E as [_ E]. constructor 2. now apply IHex. }
  assert (0 < n) as Hn.
  { apply Exists_exists in Hex' as (? & _ & ? & _). assumption. }
  specialize (IH (n - 1) (map tail rows)).
  assert (length (zip_columns fuel (map tail rows)) <= n - 1); [|lia].
  apply IH. eapply Exists_impl; [exact Hex'|]. now intros ? [_ ?].
Qed.

(** Rows of at least [n] items each give at least [n] columns. *)
Lemma zip_columns_long n :
  forall fuel (rows : list (list pyval)),
    Forall (fun row => n <= length row) rows -> n <= fuel ->
    n <= length (zip_columns fuel rows).
Proof.
  induction n as [|n IH]; intros fuel rows Hall Hfuel; [lia|].
  destruct fuel as [|fuel]; [lia|]. cbn [zip_columns].
  destruct (mapM_head_nonempty rows) as [col Hcol].
  { eapply Forall_impl; [exact Hall|]. simpl. intros; lia. }
  rewrite Hcol. cbn [length].
  assert (n <= length (zip_columns fuel (map tail rows))); [|lia].
  apply IH; [|lia]. apply Forall_fmap. eapply Forall_impl; [exact Hall|].
  intros [|x row]; simpl; lia.
Qed.

Lemma mapM_head_tuples (L : list (string * bytes)) :
  mapM head (map as_tuple L) = Some (map (fun pair => VStr (fst pair)) L).
Proof.
  induction L as [|pair L IH]; [reflexivity|].
  cbn [map]. cbn. cbn in IH. now rewrite IH.
Qed.

Lemma mapM_head_data (L : list (string * bytes)) :
  mapM head (map tail (map as_tuple L)) = Some (map (fun pair => VBytes (snd pair)) L).
Proof.
  induction L as [|pair L IH]; [reflexivity|].
  cbn [map]. cbn. cbn in IH. now rewrite IH.
Qed.

Lemma zip_star_tuples (L : list (string * bytes)) :
  L <> [] ->
  zip_star (map as_tuple L) =
  [map (fun pair => VStr (fst pair)) L; map (fun pair => VBytes (snd pair)) L].
Proof.
  destruct L as [|pair L]; [congruence|]. intros _.
  unfold zip_star. cbn [map as_tuple length].
  change (zip_columns 2 (as_tuple pair :: map as_tuple L))
    with (zip_columns 2 (map as_tuple (pair :: L))).
  cbn [zip_columns]. now rewrite mapM_head_tuples, mapM_head_data.
Qed.

(** ** The reference codec reads back what it writes *)

Module ReferenceFacts.
Import Reference.

Lemma decode_char c b : decode (utf8_char c ++ b) = String c <$> decode b.
Proof.
  destruct c as [[] [] [] [] [] [] [] []]; reflexivity.
Qed.

Lemma decode_encode s : decode (encode s) = Some s.
Proof.
  induction s as [|c s IH]; [reflexivity|].
  simpl. rewrite decode_char, IH. reflexivity.
Qed.

Lemma decode_empty b : decode b = Some "" -> b = [].
Proof.
  destruct b as [|x b]; [reflexivity|]. simpl.
  destruct (_ <? _)%N.
  - destruct (decode b); discriminate.
  - destruct (_ || _); [|discriminate].
    destruct b as [|y b]; [discriminate|].
    destruct (_ && _); [|discriminate].
    destruct (decode b); discriminate.
Qed.

Lemma append_cons (x : ascii) (a b : string) :
  String x a +:+ b = String x (a +:+ b).
Proof. reflexivity. Qed.

Lemma append_nil_l (a : string) : "" +:+ a = a.
Proof. reflexivity. Qed.

Lemma length_append (a b : string) :
  String.length (a +:+ b) = String.length a + String.length b.
Proof.
  induction a as [|c a IH]; [reflexivity|].
  rewrite append_cons. simpl. now rewrite IH.
Qed.

Lemma append_assoc (a b c : string) : (a +:+ b) +:+ c = a +:+ (b +:+ c).
Proof.
  induction a as [|x a IH]; [reflexivity|].
  rewrite !append_cons. now rewrite IH.
Qed.

Lemma parse_chars_escape c tl :
  parse_chars (escape c +:+ tl) = push c (parse_chars tl).
Proof. destruct c as [[] [] [] [] [] [] [] []]; reflexivity. Qed.

Lemma parse_chars_quote s rest :
  parse_chars (quote_chars s +:+ rest) = Some (s, rest).
Proof.
  induction s as [|c s IH]; [reflexivity|].
  cbn [quote_chars]. rewrite append_assoc, parse_chars_escape, IH. reflexivity.
Qed.

Lemma read_uint_string u rest :
  number_stop rest = true ->
  read_uint (NilEmpty.string_of_uint u +:+ rest) = (u, rest).
Proof.
  intros Hstop.
  induction u; simpl; try (rewrite IHu; reflexivity).
  destruct rest as [|c r]; [reflexivity|].
  simpl in *. destruct (digit_of c); [discriminate | reflexivity].
Qed.

Lemma unorm_to_uint n : Decimal.unorm (N.to_uint n) = N.to_uint n.
Proof.
  rewrite <- (DecimalN.Unsigned.to_of (N.to_uint n)).
  now rewrite DecimalN.Unsigned.of_to.
Qed.

Lemma parse_nat_digits n rest :
  number_stop rest = true -> parse_nat (digits n +:+ rest) = Some (n, rest).
Proof.
  intros Hstop. unfold parse_nat, digits.
  rewrite read_uint_string by assumption.
  rewrite unorm_to_uint.
  destruct (Decimal.uint_eq_dec _ _) as [_|[]]; [|reflexivity].
  now rewrite Hstop, DecimalN.Unsigned.of_to.
Qed.

Lemma digits_head n rest : starts_value (digits n +:+ rest) = true.
Proof.
  unfold digits. pose proof (unorm_to_uint n) as Hn.
  destruct (N.to_uint n); try reflexivity.
  discriminate Hn.
Qed.

Lemma starts_value_text v rest :
  no_bytes v = true -> starts_value (text v +:+ rest) = true.
Proof.
  destruct v as [|[]|z|s| |[|x l]|[|[k x] d]]; try reflexivity; try discriminate.
  intros _. simpl. unfold text_int. destruct (z <? 0)%Z; [reflexivity|].
  apply digits_head.
Qed.

Lemma starts_value_skip s : starts_value s = true -> skip_ws s = s.
Proof.
  destruct s as [|c r]; [discriminate|]. simpl.
  destruct (is_ws c); [discriminate | reflexivity].
Qed.

Lemma starts_value_expect c s :
  starts_value s = true ->
  (c = "]" \/ c = "}" \/ c = ",")%char -> expect c s = None.
Proof.
  intros Hs Hc. unfold expect. rewrite starts_value_skip by assumption.
  destruct s as [|c' r]; [reflexivity|]. simpl in Hs.
  destruct (is_ws c'); [discriminate|].
  destruct (Ascii.eqb_spec c' "]"), (Ascii.eqb_spec c' "}"), (Ascii.eqb_spec c' ",");
    try discriminate.
  destruct (Ascii.eqb_spec c' c); [|reflexivity].
  destruct Hc as [->|[->| ->]]; congruence.
Qed.

Section pyval_induction.
Variable P : pyval -> Prop.
Hypothesis HNone : P VNone.
Hypothesis HBool : forall b, P (VBool b).
Hypothesis HInt : forall z, P (VInt z).
Hypothesis HStr : forall s, P (VStr s).
Hypothesis HBytes : forall b, P (VBytes b).
Hypothesis HList : forall l, Forall P l -> P (VList l).
Hypothesis HDict : forall d, Forall (fun kv => P (snd kv)) d -> P (VDict d).

Fixpoint pyval_nested_ind (v : pyval) : P v :=
  match v with
  | VNone => HNone
  | VBool b => HBool b
  | VInt z => HInt z
  | VStr s => HStr s
  | VBytes b => HBytes b
  | VList l =>
      HList l
        ((fix go (l : list pyval) : Forall P l :=
            match l with
            | [] => @List.Forall_nil _ P
            | x :: l' => @List.Forall_cons _ P x l' (pyval_nested_ind x) (go l')
            end) l)
  | VDict d =>
      HDict d
        ((fix go (d : list (string * pyval)) : Forall (fun kv => P (snd kv)) d :=
            match d with
            | [] => @List.Forall_nil _ _
            | (k, x) :: d' =>
                @List.Forall_cons _ (fun kv => P (snd kv)) (k, x) d' (pyval_nested_ind x) (go d')
            end) d)
  end.
End pyval_induction.


Lemma parse_value_blank fuel s :
  parse_value fuel (String " " s) = parse_value fuel s.
Proof. destruct fuel; reflexivity. Qed.

Lemma parse_value_digits fuel n rest :
  parse_value (S fuel) (digits n +:+ rest) =
  match parse_nat (digits n +:+ rest) with
  | Some (m, r1) => Some (VInt (Z.of_N m), r1)
  | None => None
  end.
Proof.
  unfold digits. pose proof (unorm_to_uint n) as Hn.
  destruct (N.to_uint n); try reflexivity.
  discriminate Hn.
Qed.

Lemma parse_key_quote k rest :
  parse_key (quote k +:+ String ":" (String " " rest)) = Some (k, String " " rest).
Proof.
  unfold parse_key, quote. rewrite append_cons.
  change (expect dquote (String dquote ?r)) with (Some r).
  cbn [mbind option_bind]. rewrite parse_chars_quote. reflexivity.
Qed.

Lemma set_key_fresh d k v :
  k ∉ map fst d -> set_key d k v = d ++ [(k, v)].
Proof.
  induction d as [|[k' v'] d IH]; intros Hk; [reflexivity|].
  simpl in *. rewrite not_elem_of_cons in Hk. destruct Hk as [Hne Hk].
  destruct (String.eqb_spec k' k); [congruence|].
  now rewrite IH.
Qed.

Lemma fold_set_key acc ms :
  NoDup (map fst (acc ++ ms)) ->
  fold_left (fun d kv => set_key d (fst kv) (snd kv)) ms acc = acc ++ ms.
Proof.
  revert acc. induction ms as [|[k v] ms IH]; intros acc Hnd; simpl.
  - now rewrite app_nil_r.
  - rewrite set_key_fresh.
    + rewrite IH; rewrite <- app_assoc; [reflexivity | exact Hnd].
    + rewrite map_app in Hnd. apply NoDup_app in Hnd as (_ & Hd & _).
      intros Hin. apply (Hd k Hin). simpl. left.
Qed.

Lemma dict_of_distinct ms : NoDup (map fst ms) -> dict_of ms = ms.
Proof. intros Hnd. apply (fold_set_key [] ms Hnd). Qed.

Lemma parse_items_comma fuel s :
  parse_items (S fuel) (String "," s) =
  '(x, r1) ← parse_value fuel s;
  '(xs, r2) ← parse_items fuel r1;
  Some (x :: xs, r2).
Proof. reflexivity. Qed.

Lemma parse_members_comma fuel s :
  parse_members (S fuel) (String "," s) =
  '(k, r1) ← parse_key s;
  '(x, r2) ← parse_value fuel r1;
  '(ms, r3) ← parse_members fuel r2;
  Some ((k, x) :: ms, r3).
Proof. reflexivity. Qed.

Lemma parse_value_list fuel s :
  expect "]" s = None ->
  parse_value (S fuel) (String "[" s) =
  '(x, r1) ← parse_value fuel s;
  '(xs, r2) ← parse_items fuel r1;
  Some (VList (x :: xs), r2).
Proof.
  intros He.
  change (parse_value (S fuel) (String "[" s)) with
    (match expect "]" s with
     | Some r1 => Some (VList [], r1)
     | None =>
         '(x, r1) ← parse_value fuel s;
         '(xs, r2) ← parse_items fuel r1;
         Some (VList (x :: xs), r2)
     end).
  now rewrite He.
Qed.

Lemma parse_value_dict fuel s :
  expect "}" s = None ->
  parse_value (S fuel) (String "{" s) =
  '(k, r1) ← parse_key s;
  '(x, r2) ← parse_value fuel r1;
  '(ms, r3) ← parse_members fuel r2;
  Some (VDict (dict_of ((k, x) :: ms)), r3).
Proof.
  intros He.
  change (parse_value (S fuel) (String "{" s)) with
    (match expect "}" s with
     | Some r1 => Some (VDict [], r1)
     | None =>
         '(k, r1) ← parse_key s;
         '(x, r2) ← parse_value fuel r1;
         '(ms, r3) ← parse_members fuel r2;
         Some (VDict (dict_of ((k, x) :: ms)), r3)
     end).
  now rewrite He.
Qed.

Lemma number_stop_items l rest : number_stop (items_with text l +:+ rest) = true.
Proof. destruct l; reflexivity. Qed.

Lemma number_stop_members d rest : number_stop (members_with text d +:+ rest) = true.
Proof. destruct d as [|[k x] d]; reflexivity. Qed.

Definition reads_back (v : pyval) : Prop :=
  no_bytes v = true -> distinct_keys v = true ->
  forall fuel rest,
    String.length (text v) < fuel -> number_stop rest = true ->
    parse_value fuel (text v +:+ rest) = Some (v, rest).

Lemma parse_items_text l :
  Forall reads_back l ->
  forallb no_bytes l = true -> forallb distinct_keys l = true ->
  forall fuel rest,
    String.length (items_with text l) < fuel ->
    parse_items fuel (items_with text l +:+ rest) = Some (l, rest).
Proof.
  induction 1 as [|x l Hx _ IH]; intros Hb Hk fuel rest Hfuel.
  - destruct fuel; [simpl in Hfuel; lia | reflexivity].
  - simpl in Hb, Hk. apply andb_true_iff in Hb as [Hbx Hb], Hk as [Hkx Hk].
    cbn [items_with] in *.
    rewrite !length_append in Hfuel. simpl in Hfuel.
    destruct fuel as [|fuel]; [lia|].
    rewrite !append_assoc, !append_cons, ?append_nil_l.
    rewrite parse_items_comma, parse_value_blank.
    rewrite (Hx Hbx Hkx fuel _ ltac:(lia) (number_stop_items _ _)).
    cbn [mbind option_bind]. rewrite IH; [reflexivity|assumption..|lia].
Qed.

Lemma parse_members_text d :
  Forall (fun kv => reads_back (snd kv)) d ->
  forallb (fun kv => match kv with (_, x) => no_bytes x end) d = true ->
  forallb (fun kv => match kv with (_, x) => distinct_keys x end) d = true ->
  forall fuel rest,
    String.length (members_with text d) < fuel ->
    parse_members fuel (members_with text d +:+ rest) = Some (d, rest).
Proof.
  induction 1 as [|[k x] d Hx _ IH]; intros Hb Hk fuel rest Hfuel.
  - destruct fuel; [simpl in Hfuel; lia | reflexivity].
  - simpl in Hb, Hk, Hx. apply andb_true_iff in Hb as [Hbx Hb], Hk as [Hkx Hk].
    cbn [members_with] in *.
    rewrite !length_append in Hfuel. simpl in Hfuel.
    destruct fuel as [|fuel]; [lia|].
    rewrite !append_assoc, !append_cons, ?append_nil_l.
    rewrite parse_members_comma.
    change (parse_key (String " " ?r)) with (parse_key r).
    rewrite parse_key_quote. cbn [mbind option_bind]. rewrite parse_value_blank.
    rewrite (Hx Hbx Hkx fuel _ ltac:(lia) (number_stop_members _ _)).
    cbn [mbind option_bind]. rewrite IH; [reflexivity|assumption..|lia].
Qed.

Lemma parse_value_text v : reads_back v.
Proof.
  induction v as [| b | z | s | b | l IH | d IH] using pyval_nested_ind;
    intros Hb Hk fuel rest Hfuel Hstop.
  - destruct fuel; [simpl in Hfuel; lia | reflexivity].
  - destruct fuel; [simpl in Hfuel; lia | destruct b; reflexivity].
  - destruct fuel as [|fuel]; [lia|].
    cbn [text]. unfold text_int. destruct (Z.ltb_spec z 0).
    + rewrite append_cons.
      change (parse_value (S fuel) (String "-" ?r))
        with ('(n, r1) ← parse_nat r; Some (VInt (- Z.of_N n), r1)).
      rewrite parse_nat_digits by assumption. cbn [mbind option_bind].
      rewrite N2Z.inj_abs_N. do 2 f_equal. f_equal. lia.
    + rewrite parse_value_digits, parse_nat_digits by assumption.
      rewrite N2Z.inj_abs_N. do 2 f_equal. f_equal. lia.
  - destruct fuel as [|fuel]; [lia|].
    cbn [text]. unfold quote. rewrite append_cons.
    change (parse_value (S fuel) (String dquote ?r))
      with ('(x, r1) ← parse_chars r; Some (VStr x, r1)).
    now rewrite parse_chars_quote.
  - discriminate Hb.
  - destruct l as [|x l].
    + destruct fuel; [simpl in Hfuel; lia | reflexivity].
    + simpl in Hb, Hk. apply andb_true_iff in Hb as [Hbx Hb], Hk as [Hkx Hk].
      apply Forall_cons in IH as [Hx IH].
      cbn [text] in *. rewrite !length_append in Hfuel. simpl in Hfuel.
      destruct fuel as [|fuel]; [lia|].
      rewrite !append_assoc, !append_cons, ?append_nil_l.
      rewrite parse_value_list
        by (apply starts_value_expect; [now apply starts_value_text | now left]).
      rewrite (Hx Hbx Hkx fuel _ ltac:(lia) (number_stop_items _ _)).
      cbn [mbind option_bind].
      rewrite parse_items_text; [reflexivity|assumption..|lia].
  - destruct d as [|[k x] d].
    + destruct fuel; [simpl in Hfuel; lia | reflexivity].
    + simpl in Hb, Hk.
      apply andb_true_iff in Hb as [Hbx Hb], Hk as [Hnd Hk].
      apply andb_true_iff in Hk as [Hkx Hk]. apply bool_decide_eq_true in Hnd.
      apply Forall_cons in IH as [Hx IH]. simpl in Hx.
      cbn [text] in *. rewrite !length_append in Hfuel. simpl in Hfuel.
      destruct fuel as [|fuel]; [lia|].
      rewrite !append_assoc, !append_cons, ?append_nil_l.
      rewrite parse_value_dict by reflexivity.
      rewrite parse_key_quote. cbn [mbind option_bind]. rewrite parse_value_blank.
      rewrite (Hx Hbx Hkx fuel _ ltac:(lia) (number_stop_members _ _)).
      cbn [mbind option_bind].
      rewrite parse_members_text; [|assumption..|lia].
      cbn [mbind option_bind]. now rewrite dict_of_distinct.
Qed.

Lemma text_nonempty v : no_bytes v = true -> text v <> "".
Proof.
  intros Hb Hv. pose proof (starts_value_text v "" Hb) as Hs.
  rewrite Hv in Hs. discriminate Hs.
Qed.

Lemma loads_dumps v :
  jsonable v = true ->
  exists s, dumps v = Some s /\ s <> "" /\ loads s = Some v.
Proof.
  unfold jsonable. intros [Hb Hk]%andb_true_iff.
  exists (text v). unfold dumps. rewrite Hb.
  split; [reflexivity|]. split; [now apply text_nonempty|].
  unfold loads.
  pose proof (parse_value_text v Hb Hk (S (String.length (text v))) ""
                ltac:(lia) eq_refl) as Hp.
  assert (Hnil : forall a : string, a +:+ "" = a).
  { induction a as [|c a IHa]; [reflexivity|]. rewrite append_cons. now rewrite IHa. }
  rewrite Hnil in Hp. rewrite Hp. reflexivity.
Qed.

End ReferenceFacts.

Definition reference_codec : TextCodec := {|
  utf8_encode := Reference.encode;
  utf8_decode := Reference.decode;
  json_dumps := Reference.dumps;
  json_loads := Reference.loads;
  utf8_decode_encode := ReferenceFacts.decode_encode;
  utf8_decode_nil := eq_refl;
  utf8_decode_empty := ReferenceFacts.decode_empty;
  json_loads_dumps := ReferenceFacts.loads_dumps
|}.

(** * The claims *)

Section Claims.
Context `{codec : TextCodec}.

Lemma headers_value_nonempty text v :
  text <> EmptyString -> json_loads text = Some v -> headers_value text = Some v.
Proof.
  intros Hne Hl. unfold headers_value.
  destruct (String.eqb_spec text EmptyString); [contradiction | exact Hl].
Qed.

(** A well-formed call puts the topic frame, the headers frame and the
    parts on the wire, the last of them marked as [flags] says. *)
Lemma send_message_wire (topic : string) (headers : list (string * pyval))
    (P : list bytes) (kwargs : gmap string Z) (s : Socket) :
  jsonable (VDict headers) = true ->
  delete "flags" kwargs = ∅ ->
  exists text,
    json_dumps (VDict (Headers_dict (Headers_new headers))) = Some text /\
    text <> EmptyString /\
    json_loads text = Some (VDict (Headers_dict (Headers_new headers))) /\
    send_message topic (ADict headers) (map VBytes P) kwargs s =
    (inr tt,
     MkSocket
       (sent s ++
        Frame (utf8_encode topic) true
        :: mark (Z.testbit (default 0%Z (kwargs !! "flags")) 1) (utf8_encode text :: P))
       (pending s) (rcvmore s)).
Proof.
  intros Hj Hkw.
  destruct (json_loads_dumps _ (jsonable_Headers_new headers Hj))
    as (text & Hd & Hne & Hl).
  exists text. repeat split; try assumption.
  apply send_message_spec; [assumption|].
  cbn [headers_sent]. now rewrite Headers_or_empty_dict.
Qed.

(** C1. Plain-form round trip: for every topic, header mapping and
    list of byte-string parts, [recv_message] on the frames that
    [send_message(T, H, *P)] put on the wire returns
    [(T, Headers(H), P)], whatever is queued behind them. *)
Theorem plain_round_trip (T : string) (headers : list (string * pyval))
    (P : list bytes) (s : Socket) :
  jsonable (VDict headers) = true ->
  exists frames,
    send_message T (ADict headers) (map VBytes P) ∅ s =
      (inr tt, MkSocket (sent s ++ frames) (pending s) (rcvmore s)) /\
    forall flags r q,
      pending r = frames ++ q ->
      recv_message flags r =
        (inr (T, Headers_new headers, P), MkSocket (sent r) q false).
Proof.
  intros Hj.
  destruct (send_message_wire T headers P ∅ s Hj (delete_empty _))
    as (text & _ & Hne & Hl & Hsend).
  exists (message_frames (utf8_encode T :: utf8_encode text :: P)).
  split; [exact Hsend|].
  intros flags r q Hp.
  apply (recv_message_spec flags r (utf8_encode T) (utf8_encode text) P q T text
           (VDict (Headers_dict (Headers_new headers)))).
  - exact Hp.
  - apply utf8_decode_encode.
  - apply utf8_decode_encode.
  - now apply headers_value_nonempty.
  - cbn [Headers_of_value]. unfold Headers_dict.
    rewrite Headers_new_items; [reflexivity | apply Headers_new_canonical].
Qed.

(** Whatever the flags, N parts go out as N + 2 frames: the topic frame
    is marked, the headers frame is marked when parts follow or when
    [flags] has the [SNDMORE] bit, and the last frame is marked exactly
    when [flags] has that bit. *)
Lemma frame_flags_pass_through (T : string) (headers : list (string * pyval))
    (P : list bytes) (kwargs : gmap string Z) (s : Socket) :
  jsonable (VDict headers) = true ->
  delete "flags" kwargs = ∅ ->
  exists frames,
    send_message T (ADict headers) (map VBytes P) kwargs s =
      (inr tt, MkSocket (sent s ++ frames) (pending s) (rcvmore s)) /\
    length frames = length P + 2 /\
    more <$> frames !! 0 = Some true /\
    more <$> frames !! 1 =
      Some (bool_decide (0 < length P)
            || Z.testbit (default 0%Z (kwargs !! "flags")) 1) /\
    more <$> list.last frames = Some (Z.testbit (default 0%Z (kwargs !! "flags")) 1).
Proof.
  intros Hj Hkw.
  destruct (send_message_wire T headers P kwargs s Hj Hkw)
    as (text & _ & _ & _ & Hsend).
  set (bit := Z.testbit (default 0%Z (kwargs !! "flags")) 1) in *.
  exists (Frame (utf8_encode T) true :: mark bit (utf8_encode text :: P)).
  split; [exact Hsend|]. repeat split.
  - cbn [length]. rewrite mark_length. cbn [length]. lia.
  - destruct P; reflexivity.
  - rewrite last_cons.
    pose proof (mark_last bit (utf8_encode text :: P) ltac:(discriminate)) as Hl.
    destruct (list.last (mark bit (utf8_encode text :: P))); [exact Hl | discriminate Hl].
Qed.

(** C2, as amended.  A call whose flags do not have the [SNDMORE] bit
    (the default [flags=0] among them) and that sends N parts puts
    exactly N + 2 frames on the wire; the topic frame is marked "more",
    the headers frame is marked "more" exactly when N > 0, and the last
    frame is not marked. *)
Theorem frame_count_and_more_flags (T : string) (headers : list (string * pyval))
    (P : list bytes) (kwargs : gmap string Z) (s : Socket) :
  jsonable (VDict headers) = true ->
  delete "flags" kwargs = ∅ ->
  Z.testbit (default 0%Z (kwargs !! "flags")) 1 = false ->
  exists frames,
    send_message T (ADict headers) (map VBytes P) kwargs s =
      (inr tt, MkSocket (sent s ++ frames) (pending s) (rcvmore s)) /\
    length frames = length P + 2 /\
    more <$> frames !! 0 = Some true /\
    more <$> frames !! 1 = Some (bool_decide (0 < length P)) /\
    more <$> list.last frames = Some false.
Proof.
  intros Hj Hkw Hbit.
  destruct (send_message_wire T headers P kwargs s Hj Hkw)
    as (text & _ & _ & _ & Hsend).
  rewrite Hbit in Hsend.
  exists (Frame (utf8_encode T) true :: mark false (utf8_encode text :: P)).
  split; [exact Hsend|]. repeat split.
  - cbn [length]. rewrite mark_length. cbn [length]. lia.
  - destruct P; reflexivity.
  - rewrite last_cons.
    pose proof (mark_last false (utf8_encode text :: P) ltac:(discriminate)) as Hl.
    destruct (list.last (mark false (utf8_encode text :: P))); [exact Hl | discriminate Hl].
Qed.

(** C3.  [send_message_ex] called with no (content-type, message)
    tuple at all raises [ValueError] from the unpacking of
    [list(zip( *msg_tuples ))] and sends nothing. *)
Theorem send_message_ex_without_tuples (T : string) (headers : headers_arg)
    (kwargs : gmap string Z) (s : Socket) :
  send_message_ex T headers [] kwargs s = (inl ValueError, s).
Proof. reflexivity. Qed.

(** Extended-form round trip for at least one pair: [recv_message_ex]
    on the frames [send_message_ex(T, H, *L)] put on the wire returns
    [T], [Headers(H)] with its Content-Type entry set to the content
    types of [L], and the pairs of [L]. *)
Lemma extended_round_trip (T : string) (headers : list (string * pyval))
    (L : list (string * bytes)) (s : Socket) :
  jsonable (VDict headers) = true ->
  L <> [] ->
  exists frames,
    send_message_ex T (ADict headers) (map as_tuple L) ∅ s =
      (inr tt, MkSocket (sent s ++ frames) (pending s) (rcvmore s)) /\
    forall flags r q,
      pending r = frames ++ q ->
      recv_message_ex flags r =
        (inr (T,
              Headers_setitem (Headers_new headers) CONTENT_TYPE
                (VList (map (fun pair => VStr (fst pair)) L)),
              map (fun pair => (VStr (fst pair), snd pair)) L),
         MkSocket (sent r) q false).
Proof.
  intros Hj HL.
  set (types := map (fun pair : string * bytes => VStr (fst pair)) L).
  set (hd := Headers_setitem (Headers_new headers) CONTENT_TYPE (VList types)).
  assert (canonical (items hd)) as Hc by (cbn [hd Headers_setitem items]; auto with headers).
  assert (jsonable (VDict (Headers_dict hd)) = true) as Hjd.
  { apply jsonable_Headers_setitem.
    - apply Headers_new_canonical.
    - now apply jsonable_Headers_new.
    - unfold jsonable, types. cbn [no_bytes distinct_keys].
      apply andb_true_iff. split; apply forallb_forall; intros x Hx;
        apply in_map_iff in Hx as (pair & <- & _); reflexivity. }
  assert (Headers_new (Headers_dict hd) = hd) as Hid.
  { now apply Headers_new_items. }
  destruct (send_message_wire T (Headers_dict hd) (map snd L) ∅ s Hjd (delete_empty _))
    as (text & _ & Hne & Hl & Hsend).
  rewrite Hid in Hl.
  exists (message_frames (utf8_encode T :: utf8_encode text :: map snd L)).
  split.
  - unfold send_message_ex. rewrite zip_star_tuples by assumption.
    rewrite Headers_or_empty_dict. fold types. fold hd.
    transitivity (send_message T (ADict (Headers_dict hd)) (map VBytes (map snd L)) ∅ s);
      [now rewrite map_map | exact Hsend].
  - intros flags r q Hp. unfold recv_message_ex. rewrite run_bind.
    rewrite (recv_message_spec flags r (utf8_encode T) (utf8_encode text)
               (map snd L) q T text (VDict (Headers_dict hd)) hd);
      [ | exact Hp | apply utf8_decode_encode | apply utf8_decode_encode
        | now apply headers_value_nonempty | cbn [Headers_of_value]; now rewrite Hid ].
    rewrite run_bind.
    assert (Headers_getitem hd CONTENT_TYPE = VList types) as Hget.
    { unfold Headers_getitem, hd, Headers_setitem. cbn [items].
      generalize (items (Headers_new headers)). intros l.
      induction l as [|[k v] l IH]; [reflexivity|].
      cbn [set_item]. destruct (same_key k CONTENT_TYPE) eqn:E.
      - cbn [find fst]. now rewrite E.
      - cbn [find fst]. now rewrite E. }
    rewrite Hget. cbn [py_iter lift]. rewrite run_ret.
    do 3 f_equal. unfold types. clear.
    induction L as [|pair L IH]; [reflexivity|]. cbn. now rewrite <- IH.
Qed.

(** C4.  The extended round trip breaks for the empty list of pairs:
    [send_message_ex] raises [ValueError] before anything is sent, and
    a receiver that is handed the frames of that call finds none. *)
Theorem extended_round_trip_without_pairs (T : string) (headers : list (string * pyval))
    (s : Socket) (flags : Z) :
  send_message_ex T (ADict headers) (map as_tuple []) ∅ s = (inl ValueError, s) /\
  recv_message_ex flags
    (MkSocket []
       (new_frames s (snd (send_message_ex T (ADict headers) (map as_tuple []) ∅ s)))
       false)
  = (inl Again, MkSocket [] [] false).
Proof.
  split; [reflexivity|].
  cbn [map send_message_ex zip_star raise snd]. unfold new_frames.
  rewrite drop_all. reflexivity.
Qed.

Lemma unpack_pair_fails {A} (cols : list (list pyval)) (f : list pyval -> list pyval -> A) (a : A) :
  length cols <> 2 ->
  match cols with
  | [types; msg_parts] => f types msg_parts
  | _ => a
  end = a.
Proof. destruct cols as [|c1 [|c2 [|c3 cols]]]; simpl; intros; (reflexivity || lia). Qed.

Lemma zip_star_length_short (rows : list (list pyval)) n :
  Exists (fun row => length row <= n) rows -> length (zip_star rows) <= n.
Proof.
  intros Hex. unfold zip_star. destruct rows as [|row rows].
  - simpl; lia.
  - now apply zip_columns_short.
Qed.

Lemma zip_star_length_long (rows : list (list pyval)) n :
  rows <> [] -> Forall (fun row => n <= length row) rows ->
  n <= length (zip_star rows).
Proof.
  intros Hne Hall. unfold zip_star. destruct rows as [|row rows]; [congruence|].
  apply zip_columns_long; [assumption|].
  now apply Forall_cons in Hall as [? _].
Qed.

(** C5, as amended.  [send_message_ex] raises [ValueError] before any
    frame is sent whenever some element of its sequence has fewer than
    two items, or the sequence has elements and every one of them has
    more than two items. *)
Theorem send_message_ex_arity (T : string) (headers : headers_arg)
    (msg_tuples : list (list pyval)) (kwargs : gmap string Z) (s : Socket) :
  Exists (fun t => length t < 2) msg_tuples \/
  (msg_tuples <> [] /\ Forall (fun t => 2 < length t) msg_tuples) ->
  send_message_ex T headers msg_tuples kwargs s = (inl ValueError, s).
Proof.
  intros Harity. unfold send_message_ex.
  rewrite unpack_pair_fails; [reflexivity|].
  destruct Harity as [Hshort | [Hne Hlong]].
  - assert (length (zip_star msg_tuples) <= 1); [|lia].
    apply zip_star_length_short.
    eapply Exists_impl; [exact Hshort|]. simpl. intros; lia.
  - assert (3 <= length (zip_star msg_tuples)); [|lia].
    apply zip_star_length_long; [assumption|].
    eapply Forall_impl; [exact Hlong|]. simpl. intros; lia.
Qed.

(** C6.  A keyword other than [flags] makes [send_message] raise
    [TypeError] with no frame sent; a call through [send_message_ex]
    sends no frame either, and raises that [TypeError] whenever its
    tuples unpack, so that [send_message] is reached. *)
Theorem unexpected_keyword (T : string) (headers : headers_arg)
    (kwargs : gmap string Z) (k : string) (s : Socket) :
  k <> "flags" -> is_Some (kwargs !! k) ->
  (forall msg_parts,
     send_message T headers msg_parts kwargs s = (inl TypeError, s)) /\
  (forall msg_tuples,
     exists e,
       send_message_ex T headers msg_tuples kwargs s = (inl e, s) /\
       (length (zip_star msg_tuples) = 2 -> e = TypeError)).
Proof.
  intros Hk [z Hz].
  assert (delete "flags" kwargs <> ∅) as Hkw.
  { intros Hempty.
    assert (delete "flags" kwargs !! k = Some z) as Hin
      by now rewrite lookup_delete_ne.
    rewrite Hempty, lookup_empty in Hin. discriminate. }
  split.
  - intros msg_parts. now apply send_message_unexpected_keyword.
  - intros msg_tuples. unfold send_message_ex.
    destruct (zip_star msg_tuples) as [|c1 [|c2 [|c3 cols]]];
      try (exists ValueError; split; [reflexivity | simpl; intros; lia]).
    exists TypeError. split; [|reflexivity].
    now apply send_message_unexpected_keyword.
Qed.

(** C7.  Missing headers and missing parts are no errors.  Once the
    topic frame is read: with no frame after the topic, [recv_message]
    returns empty headers and no parts; with an empty headers frame it
    returns empty headers and the parts that follow, if any; with no
    frame after a headers frame it returns those headers and no
    parts. *)
Theorem missing_headers_and_parts (flags : Z) (r : Socket) (t : bytes) (T : string)
    (q : list frame) :
  utf8_decode t = Some T ->
  (pending r = Frame t false :: q ->
   recv_message flags r = (inr (T, Headers_empty, []), MkSocket (sent r) q false)) /\
  (forall P,
     pending r = message_frames (t :: [] :: P) ++ q ->
     recv_message flags r = (inr (T, Headers_empty, P), MkSocket (sent r) q false)) /\
  (forall h text d,
     pending r = message_frames [t; h] ++ q ->
     utf8_decode h = Some text -> text <> EmptyString ->
     json_loads text = Some (VDict d) ->
     recv_message flags r = (inr (T, Headers_new d, []), MkSocket (sent r) q false)).
Proof.
  intros Ht. repeat split.
  - intros Hp. now apply recv_message_topic_only with (t := t).
  - intros P Hp.
    apply (recv_message_spec flags r t [] P q T EmptyString (VDict [])); try assumption.
    + apply utf8_decode_nil.
    + reflexivity.
    + reflexivity.
  - intros h text d Hp Hh Hne Hl.
    apply (recv_message_spec flags r t h [] q T text (VDict d)); try assumption.
    + now apply headers_value_nonempty.
    + reflexivity.
Qed.

(** C8.  A headers frame that is not empty and is not valid UTF-8, or
    whose text is not valid JSON, makes [recv_message] raise; and
    whenever [recv_message] returns after a non-empty headers frame,
    the headers are those the text of that frame parses to. *)
Theorem malformed_headers_raise (flags : Z) (r : Socket) (t h : bytes) (T : string)
    (m : bool) (q : list frame) :
  pending r = Frame t true :: Frame h m :: q ->
  utf8_decode t = Some T ->
  h <> [] ->
  (utf8_decode h = None ->
   recv_message flags r = (inl UnicodeDecodeError, MkSocket (sent r) q m)) /\
  (forall text,
     utf8_decode h = Some text -> json_loads text = None ->
     recv_message flags r = (inl JSONDecodeError, MkSocket (sent r) q m)) /\
  (forall res s',
     recv_message flags r = (inr res, s') ->
     exists text v,
       utf8_decode h = Some text /\ json_loads text = Some v /\
       Headers_of_value v = inr (snd (fst res))).
Proof.
  intros Hp Ht Hh.
  pose proof (recv_message_headers_frame flags r t h m q T Hp Ht) as Hrun.
  assert (forall text, utf8_decode h = Some text ->
                       String.eqb text EmptyString = false) as Hne.
  { intros text Htext. apply String.eqb_neq. intros ->.
    now apply utf8_decode_empty in Htext. }
  repeat split.
  - intros Hnone. now rewrite Hnone in Hrun.
  - intros text Htext Hl. rewrite Htext in Hrun. rewrite Hrun.
    rewrite run_bind, (Hne _ Htext). unfold jsonapi_loads. now rewrite Hl.
  - intros res s' Hres. rewrite Hres in Hrun.
    destruct (utf8_decode h) as [text|] eqn:Htext; [|discriminate].
    rewrite run_bind, (Hne _ eq_refl) in Hrun. unfold jsonapi_loads in Hrun.
    destruct (json_loads text) as [v|] eqn:Hl; [|discriminate].
    exists text, v. split; [reflexivity|]. split; [exact Hl|].
    rewrite run_ret, run_bind in Hrun. cbn [getsockopt_RCVMORE rcvmore] in Hrun.
    rewrite run_bind in Hrun.
    destruct ((if m then recv_multipart flags else mret [])
                (MkSocket (sent r) q m)) as [[e|message] s1]; [discriminate|].
    rewrite run_bind in Hrun. unfold lift in Hrun.
    destruct (Headers_of_value v) as [e|hd]; [discriminate|].
    rewrite run_ret in Hrun. now inversion Hrun.
Qed.

Lemma Headers_getitem_absent hd k :
  Forall (fun kv => same_key (fst kv) k = false) (items hd) ->
  Headers_getitem hd k = VList [].
Proof.
  unfold Headers_getitem. induction 1 as [|[k' v] l Hk _ IH]; [reflexivity|].
  cbn [find]. now rewrite Hk.
Qed.

Lemma recv_message_ex_run flags r T hd P s' :
  recv_message flags r = (inr (T, hd, P), s') ->
  recv_message_ex flags r =
  match py_iter (Headers_getitem hd CONTENT_TYPE) with
  | inr types => (inr (T, hd, zip types P), s')
  | inl e => (inl e, s')
  end.
Proof.
  intros Hr. unfold recv_message_ex. rewrite run_bind, Hr.
  rewrite run_bind. unfold lift.
  now destruct (py_iter (Headers_getitem hd CONTENT_TYPE)).
Qed.

(** C9.  [recv_message_ex] pairs the Content-Type sequence with the
    received parts position by position and stops at the shorter of
    the two; headers without a Content-Type entry give no pair at all,
    whatever parts were received. *)
Theorem recv_message_ex_truncates (flags : Z) (r : Socket) (T : string)
    (hd : Headers) (P : list bytes) (s' : Socket) :
  recv_message flags r = (inr (T, hd, P), s') ->
  (forall types,
     py_iter (Headers_getitem hd CONTENT_TYPE) = inr types ->
     exists paired,
       recv_message_ex flags r = (inr (T, hd, paired), s') /\
       length paired = Nat.min (length types) (length P) /\
       forall i x, paired !! i = Some x <->
                   types !! i = Some (fst x) /\ P !! i = Some (snd x)) /\
  (Forall (fun kv => same_key (fst kv) CONTENT_TYPE = false) (items hd) ->
   recv_message_ex flags r = (inr (T, hd, []), s')).
Proof.
  intros Hr. pose proof (recv_message_ex_run _ _ _ _ _ _ Hr) as Hex. split.
  - intros types Hty. rewrite Hty in Hex. exists (zip types P).
    split; [exact Hex|]. split; [apply length_zip_with|].
    intros i [ct p]. rewrite lookup_zip_with_Some. cbn [fst snd]. split.
    + intros (a & b & [= -> ->] & Ha & Hb). now split.
    + intros [Ha Hb]. now exists ct, p.
  - intros Habs. rewrite (Headers_getitem_absent _ _ Habs) in Hex. exact Hex.
Qed.

(** C10, as amended.  On a frame sequence on which [recv_message]
    succeeds and whose Content-Type value can be iterated over (a
    sequence, a string, a mapping, or no entry at all),
    [recv_message_ex] returns the same topic and the same headers, left
    as they are, and the zip of the Content-Type sequence with the
    parts of [recv_message]; on a Content-Type value that cannot be
    iterated over it raises [TypeError]. *)
Theorem recv_message_ex_refines (flags : Z) (r : Socket) (T : string)
    (hd : Headers) (P : list bytes) (s' : Socket) :
  recv_message flags r = (inr (T, hd, P), s') ->
  (forall types,
     py_iter (Headers_getitem hd CONTENT_TYPE) = inr types ->
     recv_message_ex flags r = (inr (T, hd, zip types P), s')) /\
  (forall e,
     py_iter (Headers_getitem hd CONTENT_TYPE) = inl e ->
     e = TypeError /\ recv_message_ex flags r = (inl TypeError, s')).
Proof.
  intros Hr. pose proof (recv_message_ex_run _ _ _ _ _ _ Hr) as Hex. split.
  - intros types Hty. now rewrite Hty in Hex.
  - intros e He. rewrite He in Hex.
    assert (e = TypeError) as ->; [|now split].
    destruct (Headers_getitem hd CONTENT_TYPE); simpl in He; congruence.
Qed.

End Claims.

(** * The claims on concrete messages, with the reference codec *)

(** [send("devices/temp", {}, b"payload1")], then receive. *)
Example devices_temp :
  recv_message (codec := reference_codec) 0
    (inbox (sent (snd (send_message (codec := reference_codec) "devices/temp" (ADict [])
                         [VBytes (ascii_bytes "payload1")] ∅ socket0)))) =
  (inr ("devices/temp", Headers_new [], [ascii_bytes "payload1"]), socket0).
Proof. vm_compute. reflexivity. Qed.

(** [send_ex("alerts", {}, ("text/plain", b"hi"), ("application/json", b"{}"))],
    then [recv_ex]. *)
Example alerts :
  recv_message_ex (codec := reference_codec) 0
    (inbox (sent (snd (send_message_ex (codec := reference_codec) "alerts" (ADict [])
                         (map as_tuple [("text/plain", ascii_bytes "hi");
                                        ("application/json", ascii_bytes "{}")])
                         ∅ socket0)))) =
  (inr ("alerts",
        Headers_new
          [("Content-Type", VList [VStr "text/plain"; VStr "application/json"])],
        [(VStr "text/plain", ascii_bytes "hi");
         (VStr "application/json", ascii_bytes "{}")]),
   socket0).
Proof. vm_compute. reflexivity. Qed.

(** The reference codec reads a JSON text with blanks and escapes. *)
Example loads_sample :
  Reference.loads
    ("{ " +:+ quoted "a" +:+ " : [1, -20 , null, true], "
     +:+ quoted "b" +:+ ":" +:+ quoted "x\n\u00e9" +:+ "}") =
  Some (VDict [("a", VList [VInt 1; VInt (-20); VNone; VBool true]);
               ("b", VStr (String "x" (String "010" (String "233" EmptyString))))]).
Proof. vm_compute. reflexivity. Qed.

(** C1 on the message [("devices/temp", sample_headers, [b"payload1"])]. *)
Lemma plain_round_trip_witness :
  jsonable (VDict sample_headers) = true /\
  exists frames,
    send_message (codec := reference_codec) "devices/temp" (ADict sample_headers)
      (map VBytes [ascii_bytes "payload1"]) ∅ socket0 =
      (inr tt, MkSocket (sent socket0 ++ frames) (pending socket0) (rcvmore socket0)) /\
    forall flags r q,
      pending r = frames ++ q ->
      recv_message (codec := reference_codec) flags r =
        (inr ("devices/temp", Headers_new sample_headers, [ascii_bytes "payload1"]),
         MkSocket (sent r) q false).
Proof.
  split; [reflexivity|].
  exact (plain_round_trip (codec := reference_codec) "devices/temp" sample_headers
           [ascii_bytes "payload1"] socket0 eq_refl).
Defined.

(** C2 as stated fails: with [flags=zmq.SNDMORE] and no part, the
    headers frame is the last frame and is marked "more". *)
Example sndmore_flag_marks_last_frame :
  send_message (codec := reference_codec) "t" (ADict []) (map VBytes [])
    {["flags" := SNDMORE]} socket0 =
  (inr tt,
   MkSocket [Frame (ascii_bytes "t") true; Frame (ascii_bytes "{}") true] [] false).
Proof. vm_compute. reflexivity. Qed.

(** C2, as amended, on a non-blocking send of two parts. *)
Lemma frame_count_and_more_flags_witness :
  exists frames,
    send_message (codec := reference_codec) "t" (ADict sample_headers)
      (map VBytes [ascii_bytes "a"; ascii_bytes "b"]) {["flags" := NOBLOCK]} socket0 =
      (inr tt, MkSocket (sent socket0 ++ frames) (pending socket0) (rcvmore socket0)) /\
    length frames = length [ascii_bytes "a"; ascii_bytes "b"] + 2 /\
    more <$> frames !! 0 = Some true /\
    more <$> frames !! 1 =
      Some (bool_decide (0 < length [ascii_bytes "a"; ascii_bytes "b"])) /\
    more <$> list.last frames = Some false.
Proof.
  apply (frame_count_and_more_flags (codec := reference_codec) "t" sample_headers
           [ascii_bytes "a"; ascii_bytes "b"] {["flags" := NOBLOCK]} socket0).
  - reflexivity.
  - apply delete_singleton_eq.
  - reflexivity.
Defined.

(** C5 as stated fails: a 3-tuple next to a 2-tuple is accepted, and
    its third item is dropped. *)
Example longer_tuple_is_accepted :
  send_message_ex (codec := reference_codec) "t" (ADict [])
    [[VStr "a"; VBytes (ascii_bytes "x")];
     [VStr "b"; VBytes (ascii_bytes "y"); VBytes (ascii_bytes "z")]]
    ∅ socket0 =
  (inr tt,
   MkSocket
     [Frame (ascii_bytes "t") true;
      Frame (ascii_bytes
               (content_type_object ("[" +:+ quoted "a" +:+ ", " +:+ quoted "b" +:+ "]")))
        true;
      Frame (ascii_bytes "x") true;
      Frame (ascii_bytes "y") false]
     [] false).
Proof. vm_compute. reflexivity. Qed.

(** C5, as amended, on a lone 1-tuple. *)
Lemma send_message_ex_arity_witness :
  send_message_ex (codec := reference_codec) "t" (ADict []) [[VStr "a"]] ∅ socket0 =
  (inl ValueError, socket0).
Proof.
  apply (send_message_ex_arity (codec := reference_codec)).
  left. constructor. simpl. lia.
Defined.

(** C6 on a call that passes [copy]. *)
Lemma unexpected_keyword_witness :
  (forall msg_parts,
     send_message (codec := reference_codec) "t" ANone msg_parts
       {["flags" := NOBLOCK; "copy" := 0%Z]} socket0 = (inl TypeError, socket0)) /\
  (forall msg_tuples,
     exists e,
       send_message_ex (codec := reference_codec) "t" ANone msg_tuples
         {["flags" := NOBLOCK; "copy" := 0%Z]} socket0 = (inl e, socket0) /\
       (length (zip_star msg_tuples) = 2 -> e = TypeError)).
Proof.
  apply (unexpected_keyword (codec := reference_codec) "t" ANone
           {["flags" := NOBLOCK; "copy" := 0%Z]} "copy" socket0).
  - discriminate.
  - exists 0%Z. reflexivity.
Defined.

(** C7 on a topic frame that stands alone. *)
Lemma missing_headers_and_parts_witness :
  recv_message (codec := reference_codec) 0 (inbox [Frame (ascii_bytes "t") false]) =
  (inr ("t", Headers_empty, []), MkSocket [] [] false).
Proof.
  exact (proj1 (missing_headers_and_parts (codec := reference_codec) 0
                  (inbox [Frame (ascii_bytes "t") false]) (ascii_bytes "t") "t" []
                  eq_refl)
           eq_refl).
Defined.

(** C8 on a headers frame that is not UTF-8. *)
Lemma malformed_headers_raise_witness :
  recv_message (codec := reference_codec) 0
    (inbox [Frame (ascii_bytes "t") true; Frame [xff] false]) =
  (inl UnicodeDecodeError, MkSocket [] [] false).
Proof.
  refine (proj1 (malformed_headers_raise (codec := reference_codec) 0
                   (inbox [Frame (ascii_bytes "t") true; Frame [xff] false])
                   (ascii_bytes "t") [xff] "t" false [] eq_refl eq_refl _)
            eq_refl).
  discriminate.
Defined.

(** C9 on that message: one pair, the second part is left out. *)
Lemma recv_message_ex_truncates_witness :
  exists paired,
    recv_message_ex (codec := reference_codec) 0 one_type_two_parts =
      (inr ("t", MkHeaders [("Content-Type", VList [VStr "text/plain"])], paired),
       MkSocket [] [] false) /\
    length paired = Nat.min (length [VStr "text/plain"])
                      (length [ascii_bytes "x"; ascii_bytes "y"]) /\
    forall i x, paired !! i = Some x <->
                [VStr "text/plain"] !! i = Some (fst x) /\
                [ascii_bytes "x"; ascii_bytes "y"] !! i = Some (snd x).
Proof.
  exact (proj1 (recv_message_ex_truncates (codec := reference_codec) 0 one_type_two_parts
                  "t" (MkHeaders [("Content-Type", VList [VStr "text/plain"])])
                  [ascii_bytes "x"; ascii_bytes "y"] (MkSocket [] [] false) eq_refl)
           [VStr "text/plain"] eq_refl).
Defined.

(** C10 as stated fails: [recv_message] succeeds on a message whose
    Content-Type header is a number, and [recv_message_ex] raises
    [TypeError] on it. *)
Example number_as_content_type :
  recv_message (codec := reference_codec) 0 numeric_content_type =
    (inr ("t", MkHeaders [("Content-Type", VInt 5)], [ascii_bytes "x"]),
     MkSocket [] [] false) /\
  recv_message_ex (codec := reference_codec) 0 numeric_content_type =
    (inl TypeError, MkSocket [] [] false).
Proof. split; vm_compute; reflexivity. Qed.

(** C10, as amended, on the message of C9. *)
Lemma recv_message_ex_refines_witness :
  recv_message_ex (codec := reference_codec) 0 one_type_two_parts =
  (inr ("t", MkHeaders [("Content-Type", VList [VStr "text/plain"])],
        zip [VStr "text/plain"] [ascii_bytes "x"; ascii_bytes "y"]),
   MkSocket [] [] false).
Proof.
  exact (proj1 (recv_message_ex_refines (codec := reference_codec) 0 one_type_two_parts
                  "t" (MkHeaders [("Content-Type", VList [VStr "text/plain"])])
                  [ascii_bytes "x"; ascii_bytes "y"] (MkSocket [] [] false) eq_refl)
           [VStr "text/plain"] eq_refl).
Defined.

(** * Further properties of the messaging methods *)

(** ** Frames of a message *)

Lemma mark_payload last parts : map payload (mark last parts) = parts.
Proof.
  induction parts as [|p [|p' rest] IH]; [reflexivity..|].
  rewrite mark_cons. cbn [map payload]. now rewrite IH.
Qed.

Lemma mark_lookup_more last parts i f :
  mark last parts !! i = Some f ->
  more f = if bool_decide (i + 1 < length parts) then true else last.
Proof.
  revert i. induction parts as [|p [|p' rest] IH]; intros i Hi.
  - discriminate.
  - destruct i as [|i]; [|discriminate]. cbn in Hi. inversion Hi. reflexivity.
  - rewrite mark_cons in Hi. destruct i as [|i].
    + cbn in Hi. inversion Hi. cbn [more].
      rewrite bool_decide_eq_true_2; [reflexivity | cbn; lia].
    + cbn [lookup list_lookup] in Hi. rewrite (IH i Hi).
      cbn [length]. destruct (bool_decide (i + 1 < S (length rest))) eqn:E.
      * apply bool_decide_eq_true in E. rewrite bool_decide_eq_true_2; [reflexivity|lia].
      * apply bool_decide_eq_false in E. rewrite bool_decide_eq_false_2; [reflexivity|lia].
Qed.

(** Frames that are all marked continue into the frames that follow. *)
Lemma mark_app last parts parts' :
  parts' <> [] -> mark true parts ++ mark last parts' = mark last (parts ++ parts').
Proof.
  intros Hne. induction parts as [|p [|p' rest] IH].
  - reflexivity.
  - destruct parts' as [|q parts']; [congruence|]. reflexivity.
  - rewrite mark_cons. cbn [app] in *. rewrite mark_cons. now rewrite <- IH.
Qed.

Section FurtherSend.
Context `{codec : TextCodec}.

(** X1.  Headers that [json.dumps] refuses make [send_message] raise
    [TypeError] after the topic frame went out: the wire is left with
    that one frame, marked "more". *)
Theorem unserialisable_headers_leave_topic_frame (T : string) (headers : headers_arg)
    (msg_parts : list pyval) (kwargs : gmap string Z) (s : Socket) :
  delete "flags" kwargs = ∅ ->
  json_dumps (VDict (Headers_dict (headers_sent headers))) = None ->
  send_message T headers msg_parts kwargs s =
  (inl TypeError,
   MkSocket (sent s ++ [Frame (utf8_encode T) true]) (pending s) (rcvmore s)).
Proof.
  intros Hkw Hnone. unfold send_message. rewrite Hkw.
  rewrite bool_decide_eq_true_2 by reflexivity. cbn [negb].
  fold (headers_sent headers).
  rewrite run_bind. unfold send_string, zmq_send_string, send at 1.
  rewrite testbit_or_sndmore.
  rewrite run_bind. unfold send_json. now rewrite Hnone.
Qed.

(** X2.  A part that is not a byte string makes [send_message] raise
    [TypeError] once the topic and headers frames are on the wire, both
    marked "more"; no part is sent. *)
Theorem wrong_typed_part_leaves_two_frames (T : string) (headers : headers_arg)
    (msg_parts : list pyval) (kwargs : gmap string Z) (s : Socket) (text : string) :
  delete "flags" kwargs = ∅ ->
  json_dumps (VDict (Headers_dict (headers_sent headers))) = Some text ->
  Exists (fun part => as_bytes part = None) msg_parts ->
  send_message T headers msg_parts kwargs s =
  (inl TypeError,
   MkSocket (sent s ++ [Frame (utf8_encode T) true; Frame (utf8_encode text) true])
     (pending s) (rcvmore s)).
Proof.
  intros Hkw Htext Hbad. unfold send_message. rewrite Hkw.
  rewrite bool_decide_eq_true_2 by reflexivity. cbn [negb].
  fold (headers_sent headers).
  assert (mapM as_bytes msg_parts = None) as Hm by now apply mapM_None.
  destruct msg_parts as [|part msg_parts]; [inversion Hbad|].
  rewrite run_bind. unfold send_string, zmq_send_string, send at 1.
  rewrite testbit_or_sndmore.
  rewrite run_bind. unfold send_json. rewrite Htext. unfold send at 1.
  rewrite testbit_or_sndmore. cbn [sent pending rcvmore].
  unfold send_multipart. rewrite Hm. unfold raise.
  now rewrite <- app_assoc.
Qed.

(** X3.  The wire layout of an accepted call whose flags lack the
    [SNDMORE] bit: the payloads are the encoded topic, the encoded JSON
    text of the headers and then the parts, in the order given and
    unchanged; every frame but the last is marked "more". *)
Theorem wire_layout (T : string) (headers : list (string * pyval))
    (P : list bytes) (kwargs : gmap string Z) (s : Socket) :
  jsonable (VDict headers) = true ->
  delete "flags" kwargs = ∅ ->
  Z.testbit (default 0%Z (kwargs !! "flags")) 1 = false ->
  exists text frames,
    json_dumps (VDict (Headers_dict (Headers_new headers))) = Some text /\
    send_message T (ADict headers) (map VBytes P) kwargs s =
      (inr tt, MkSocket (sent s ++ frames) (pending s) (rcvmore s)) /\
    map payload frames = utf8_encode T :: utf8_encode text :: P /\
    forall i f, frames !! i = Some f ->
                more f = bool_decide (i + 1 < length frames).
Proof.
  intros Hj Hkw Hbit.
  destruct (send_message_wire T headers P kwargs s Hj Hkw)
    as (text & Hd & _ & _ & Hsend).
  rewrite Hbit in Hsend.
  exists text, (message_frames (utf8_encode T :: utf8_encode text :: P)).
  split; [exact Hd|]. split; [exact Hsend|]. split.
  - apply mark_payload.
  - intros i f Hi. unfold message_frames in *.
    rewrite (mark_lookup_more _ _ _ _ Hi), mark_length.
    now destruct (bool_decide _).
Qed.

End FurtherSend.

Section FurtherRoundTrips.
Context `{codec : TextCodec}.

(** The frames of an accepted call, for headers given in any of the
    three forms. *)
Lemma send_message_wire_any (T : string) (headers : headers_arg)
    (P : list bytes) (kwargs : gmap string Z) (s : Socket) :
  jsonable (VDict (Headers_dict (headers_sent headers))) = true ->
  delete "flags" kwargs = ∅ ->
  exists text,
    text <> EmptyString /\
    json_loads text = Some (VDict (Headers_dict (headers_sent headers))) /\
    send_message T headers (map VBytes P) kwargs s =
    (inr tt,
     MkSocket
       (sent s ++
        Frame (utf8_encode T) true
        :: mark (Z.testbit (default 0%Z (kwargs !! "flags")) 1) (utf8_encode text :: P))
       (pending s) (rcvmore s)).
Proof.
  intros Hj Hkw.
  destruct (json_loads_dumps _ Hj) as (text & Hd & Hne & Hl).
  exists text. repeat split; try assumption.
  now apply send_message_spec.
Qed.

(** X4.  The round trip for headers given as [None], as a dict or as a
    [Headers] object, and for any flags without the [SNDMORE] bit on
    the sending side and any flags on the receiving side:
    [recv_message] returns the topic, the headers [send_message]
    serialised and the parts. *)
Theorem round_trip_any_headers (T : string) (headers : headers_arg)
    (P : list bytes) (kwargs : gmap string Z) (s : Socket) :
  jsonable (VDict (Headers_dict (headers_sent headers))) = true ->
  canonical (items (headers_sent headers)) ->
  delete "flags" kwargs = ∅ ->
  Z.testbit (default 0%Z (kwargs !! "flags")) 1 = false ->
  exists frames,
    send_message T headers (map VBytes P) kwargs s =
      (inr tt, MkSocket (sent s ++ frames) (pending s) (rcvmore s)) /\
    forall flags r q,
      pending r = frames ++ q ->
      recv_message flags r =
        (inr (T, headers_sent headers, P), MkSocket (sent r) q false).
Proof.
  intros Hj Hc Hkw Hbit.
  destruct (send_message_wire_any T headers P kwargs s Hj Hkw)
    as (text & Hne & Hl & Hsend).
  rewrite Hbit in Hsend.
  exists (message_frames (utf8_encode T :: utf8_encode text :: P)).
  split; [exact Hsend|].
  intros flags r q Hp.
  apply (recv_message_spec flags r (utf8_encode T) (utf8_encode text) P q T text
           (VDict (Headers_dict (headers_sent headers)))).
  - exact Hp.
  - apply utf8_decode_encode.
  - apply utf8_decode_encode.
  - now apply headers_value_nonempty.
  - cbn [Headers_of_value]. unfold Headers_dict. now rewrite Headers_new_items.
Qed.

(** One message: frames that do not depend on the socket it is sent
    on, and that [recv_message] reads back in front of any queue. *)
Lemma plain_round_trip_frames (T : string) (headers : list (string * pyval))
    (P : list bytes) :
  jsonable (VDict headers) = true ->
  exists frames,
    (forall s,
       send_message T (ADict headers) (map VBytes P) ∅ s =
         (inr tt, MkSocket (sent s ++ frames) (pending s) (rcvmore s))) /\
    forall flags r q,
      pending r = frames ++ q ->
      recv_message flags r =
        (inr (T, Headers_new headers, P), MkSocket (sent r) q false).
Proof.
  intros Hj.
  destruct (json_loads_dumps _ (jsonable_Headers_new headers Hj))
    as (text & Hd & Hne & Hl).
  exists (message_frames (utf8_encode T :: utf8_encode text :: P)). split.
  - intros s. rewrite (send_message_spec T (ADict headers) P ∅ s text).
    + reflexivity.
    + apply delete_empty.
    + cbn [headers_sent]. now rewrite Headers_or_empty_dict.
  - intros flags r q Hp.
    apply (recv_message_spec flags r (utf8_encode T) (utf8_encode text) P q T text
             (VDict (Headers_dict (Headers_new headers)))).
    + exact Hp.
    + apply utf8_decode_encode.
    + apply utf8_decode_encode.
    + now apply headers_value_nonempty.
    + cbn [Headers_of_value]. unfold Headers_dict.
      rewrite Headers_new_items; [reflexivity | apply Headers_new_canonical].
Qed.

(** X5.  Message boundaries: two messages sent one after the other are
    received by two calls of [recv_message], in the order sent, and
    what is queued behind them stays queued. *)
Theorem two_messages_in_order (T1 T2 : string) (H1 H2 : list (string * pyval))
    (P1 P2 : list bytes) (s : Socket) :
  jsonable (VDict H1) = true -> jsonable (VDict H2) = true ->
  exists frames,
    (_ ← send_message T1 (ADict H1) (map VBytes P1) ∅;
     send_message T2 (ADict H2) (map VBytes P2) ∅) s =
      (inr tt, MkSocket (sent s ++ frames) (pending s) (rcvmore s)) /\
    forall flags r q,
      pending r = frames ++ q ->
      (first ← recv_message flags; second ← recv_message flags; mret (first, second)) r =
        (inr ((T1, Headers_new H1, P1), (T2, Headers_new H2, P2)),
         MkSocket (sent r) q false).
Proof.
  intros Hj1 Hj2.
  destruct (plain_round_trip_frames T1 H1 P1 Hj1) as (fs1 & Hs1 & Hr1).
  destruct (plain_round_trip_frames T2 H2 P2 Hj2) as (fs2 & Hs2 & Hr2).
  exists (fs1 ++ fs2). split.
  - rewrite run_bind, Hs1, Hs2. cbn [sent pending rcvmore]. now rewrite app_assoc.
  - intros flags r q Hp. rewrite <- app_assoc in Hp.
    rewrite run_bind, (Hr1 flags r (fs2 ++ q) Hp).
    rewrite run_bind, (Hr2 flags (MkSocket (sent r) (fs2 ++ q) false) q eq_refl).
    reflexivity.
Qed.

End FurtherRoundTrips.

Section FurtherComposition.
Context `{codec : TextCodec}.

(** X6.  [flags=zmq.SNDMORE] leaves the message open: the frames of the
    next [send_message] continue it, and [recv_message] returns one
    message whose parts are those of the first call followed by the
    topic frame, the headers frame and the parts of the second. *)
Theorem sndmore_joins_next_message (T1 T2 : string) (H1 H2 : list (string * pyval))
    (P1 P2 : list bytes) (f : Z) (s : Socket) :
  jsonable (VDict H1) = true -> jsonable (VDict H2) = true ->
  Z.testbit f 1 = true ->
  exists text2 frames,
    json_dumps (VDict (Headers_dict (Headers_new H2))) = Some text2 /\
    (_ ← send_message T1 (ADict H1) (map VBytes P1) {["flags" := f]};
     send_message T2 (ADict H2) (map VBytes P2) ∅) s =
      (inr tt, MkSocket (sent s ++ frames) (pending s) (rcvmore s)) /\
    forall flags r q,
      pending r = frames ++ q ->
      recv_message flags r =
        (inr (T1, Headers_new H1, P1 ++ utf8_encode T2 :: utf8_encode text2 :: P2),
         MkSocket (sent r) q false).
Proof.
  intros Hj1 Hj2 Hbit.
  destruct (send_message_wire T1 H1 P1 {["flags" := f]} s Hj1 (delete_singleton_eq _ _))
    as (text1 & _ & Hne1 & Hl1 & Hs1).
  assert (default 0%Z (({["flags" := f]} : gmap string Z) !! "flags") = f) as Hf
    by now rewrite lookup_singleton_eq.
  rewrite Hf, Hbit in Hs1.
  destruct (json_loads_dumps _ (jsonable_Headers_new H2 Hj2))
    as (text2 & Hd2 & _ & _).
  exists text2,
    (message_frames
       (utf8_encode T1 :: utf8_encode text1
        :: P1 ++ utf8_encode T2 :: utf8_encode text2 :: P2)).
  split; [exact Hd2|]. split.
  - rewrite run_bind, Hs1.
    rewrite (send_message_spec T2 (ADict H2) P2 ∅ _ text2);
      [ | apply delete_empty | cbn [headers_sent]; now rewrite Headers_or_empty_dict ].
    cbn [sent pending rcvmore].
    assert (Z.testbit (default 0%Z ((∅ : gmap string Z) !! "flags")) 1 = false) as ->
      by now rewrite lookup_empty.
    do 2 f_equal. rewrite <- app_assoc. f_equal.
    unfold message_frames. rewrite mark_cons. cbn [app]. f_equal.
    change (Frame (utf8_encode T2) true :: mark false (utf8_encode text2 :: P2))
      with (mark false (utf8_encode T2 :: utf8_encode text2 :: P2)).
    rewrite mark_app by discriminate. reflexivity.
  - intros flags r q Hp.
    apply (recv_message_spec flags r (utf8_encode T1) (utf8_encode text1)
             (P1 ++ utf8_encode T2 :: utf8_encode text2 :: P2) q T1 text1
             (VDict (Headers_dict (Headers_new H1)))).
    + exact Hp.
    + apply utf8_decode_encode.
    + apply utf8_decode_encode.
    + now apply headers_value_nonempty.
    + cbn [Headers_of_value]. unfold Headers_dict.
      rewrite Headers_new_items; [reflexivity | apply Headers_new_canonical].
Qed.



(** X8.  [send_message_ex] is [send_message] with the content types
    put in the Content-Type header: on well-formed pairs it behaves, for
    every keyword and on every socket, as the plain call with those
    headers and the data of the pairs as parts. *)
Theorem send_message_ex_is_send_message (T : string) (headers : headers_arg)
    (L : list (string * bytes)) (kwargs : gmap string Z) (s : Socket) :
  L <> [] ->
  send_message_ex T headers (map as_tuple L) kwargs s =
  send_message T
    (ADict (Headers_dict
              (Headers_setitem (Headers_or_empty headers) CONTENT_TYPE
                 (VList (map (fun pair => VStr (fst pair)) L)))))
    (map VBytes (map snd L)) kwargs s.
Proof.
  intros HL. unfold send_message_ex. rewrite zip_star_tuples by assumption.
  now rewrite map_map.
Qed.

(** X9.  The extended form on the wire is the plain form: a plain
    [recv_message] on the frames of [send_message_ex] returns the data
    of the pairs as parts and the content types as the Content-Type
    header. *)
Theorem plain_receive_of_extended_send (T : string) (headers : list (string * pyval))
    (L : list (string * bytes)) (s : Socket) :
  jsonable (VDict headers) = true ->
  L <> [] ->
  exists frames,
    send_message_ex T (ADict headers) (map as_tuple L) ∅ s =
      (inr tt, MkSocket (sent s ++ frames) (pending s) (rcvmore s)) /\
    length frames = length L + 2 /\
    forall flags r q,
      pending r = frames ++ q ->
      recv_message flags r =
        (inr (T,
              Headers_setitem (Headers_new headers) CONTENT_TYPE
                (VList (map (fun pair => VStr (fst pair)) L)),
              map snd L),
         MkSocket (sent r) q false).
Proof.
  intros Hj HL.
  set (types := map (fun pair : string * bytes => VStr (fst pair)) L).
  set (hd := Headers_setitem (Headers_new headers) CONTENT_TYPE (VList types)).
  assert (canonical (items hd)) as Hc by (cbn [hd Headers_setitem items]; auto with headers).
  assert (jsonable (VDict (Headers_dict hd)) = true) as Hjd.
  { apply jsonable_Headers_setitem.
    - auto with headers.
    - now apply jsonable_Headers_new.
    - unfold jsonable, types. cbn [no_bytes distinct_keys].
      apply andb_true_iff. split; apply forallb_forall; intros x Hx;
        apply in_map_iff in Hx as (pair & <- & _); reflexivity. }
  assert (Headers_new (Headers_dict hd) = hd) as Hid by now apply Headers_new_items.
  destruct (send_message_wire T (Headers_dict hd) (map snd L) ∅ s Hjd (delete_empty _))
    as (text & _ & Hne & Hl & Hsend).
  rewrite Hid in Hl.
  exists (message_frames (utf8_encode T :: utf8_encode text :: map snd L)).
  split; [|split].
  - unfold send_message_ex. rewrite zip_star_tuples by assumption.
    rewrite Headers_or_empty_dict. fold types. fold hd.
    transitivity (send_message T (ADict (Headers_dict hd)) (map VBytes (map snd L)) ∅ s);
      [now rewrite map_map | exact Hsend].
  - unfold message_frames. rewrite mark_length. cbn [length].
    rewrite length_map. lia.
  - intros flags r q Hp.
    apply (recv_message_spec flags r (utf8_encode T) (utf8_encode text)
             (map snd L) q T text (VDict (Headers_dict hd)) hd).
    + exact Hp.
    + apply utf8_decode_encode.
    + apply utf8_decode_encode.
    + now apply headers_value_nonempty.
    + cbn [Headers_of_value]. now rewrite Hid.
Qed.

(** X10.  A Content-Type header given as a string, as the docstring of
    [send_message] allows for a single part, is iterated character by
    character by [recv_message_ex]: the parts are paired with the
    characters of the string, not with the string. *)
Theorem string_content_type_is_zipped_by_character (T ct : string)
    (headers : list (string * pyval)) (P : list bytes) (s : Socket) :
  jsonable (VDict headers) = true ->
  Headers_getitem (Headers_new headers) CONTENT_TYPE = VStr ct ->
  exists frames,
    send_message T (ADict headers) (map VBytes P) ∅ s =
      (inr tt, MkSocket (sent s ++ frames) (pending s) (rcvmore s)) /\
    forall flags r q,
      pending r = frames ++ q ->
      recv_message_ex flags r =
        (inr (T, Headers_new headers,
              zip (map (fun c => VStr (String c EmptyString)) (list_ascii_of_string ct)) P),
         MkSocket (sent r) q false).
Proof.
  intros Hj Hct.
  destruct (plain_round_trip_frames T headers P Hj) as (frames & Hsend & Hrecv).
  exists frames. split; [apply Hsend|].
  intros flags r q Hp. unfold recv_message_ex.
  rewrite run_bind, (Hrecv flags r q Hp). rewrite run_bind, Hct. reflexivity.
Qed.

End FurtherComposition.

(** ** Tuples with more than two items *)

Lemma mapM_head_take (n : nat) (rows : list (list pyval)) :
  mapM head (map (take (S n)) rows) = mapM head rows.
Proof.
  induction rows as [|row rows IH]; [reflexivity|].
  cbn [map]. cbn. cbn in IH. rewrite IH. now destruct row.
Qed.

Lemma map_tail_take (n : nat) (rows : list (list pyval)) :
  map tail (map (take (S n)) rows) = map (take n) (map tail rows).
Proof.
  induction rows as [|row rows IH]; [reflexivity|].
  cbn [map]. rewrite IH. destruct row; [destruct n|]; reflexivity.
Qed.

(** Rows of at least two items, one of them of exactly two, give the
    two columns of their first and of their second items. *)
Lemma zip_columns_two (fuel : nat) (rows : list (list pyval)) :
  2 <= fuel ->
  Forall (fun row => 2 <= length row) rows ->
  Exists (fun row => length row = 2) rows ->
  exists c0 c1,
    mapM head rows = Some c0 /\
    mapM head (map tail rows) = Some c1 /\
    zip_columns fuel rows = [c0; c1].
Proof.
  intros Hfuel Hall Hex.
  destruct (mapM_head_nonempty rows) as [c0 Hc0].
  { eapply Forall_impl; [exact Hall|]. simpl. intros; lia. }
  destruct (mapM_head_nonempty (map tail rows)) as [c1 Hc1].
  { apply Forall_fmap. eapply Forall_impl; [exact Hall|].
    intros [|x row]; simpl; lia. }
  exists c0, c1. split; [exact Hc0|]. split; [exact Hc1|].
  destruct fuel as [|[|fuel]]; [lia..|].
  cbn [zip_columns]. rewrite Hc0, Hc1.
  destruct fuel as [|fuel]; [reflexivity|]. cbn [zip_columns].
  rewrite (mapM_None_2 head (map tail (map tail rows))); [reflexivity|].
  apply Exists_fmap, Exists_fmap. eapply Exists_impl; [exact Hex|].
  intros [|x [|y [|z row]]]; simpl; intros; (reflexivity || lia).
Qed.

Lemma zip_star_take_two (rows : list (list pyval)) :
  Forall (fun row => 2 <= length row) rows ->
  Exists (fun row => length row = 2) rows ->
  zip_star (map (take 2) rows) = zip_star rows.
Proof.
  intros Hall Hex.
  destruct rows as [|row rows]; [reflexivity|].
  assert (2 <= length row) as Hrow by now apply Forall_cons in Hall as [? _].
  unfold zip_star. cbn [map].
  change (take 2 row :: map (take 2) rows) with (map (take 2) (row :: rows)).
  destruct (zip_columns_two (length row) (row :: rows) Hrow Hall Hex)
    as (c0 & c1 & Hc0 & Hc1 & ->).
  destruct (zip_columns_two (length (take 2 row)) (map (take 2) (row :: rows)))
    as (d0 & d1 & Hd0 & Hd1 & ->).
  - rewrite length_take. lia.
  - apply Forall_fmap. eapply Forall_impl; [exact Hall|].
    simpl. intros r Hr. rewrite length_take. lia.
  - apply Exists_fmap. eapply Exists_impl; [exact Hex|].
    simpl. intros r Hr. rewrite length_take. lia.
  - rewrite mapM_head_take, Hc0 in Hd0.
    rewrite map_tail_take, mapM_head_take, Hc1 in Hd1.
    congruence.
Qed.

Section FurtherExtended.
Context `{codec : TextCodec}.

(** X11.  Items beyond the second are ignored: when every tuple has at
    least two items and one of them has exactly two, [send_message_ex]
    behaves as on the tuples cut down to their first two items. *)
Theorem extra_tuple_items_are_dropped (T : string) (headers : headers_arg)
    (msg_tuples : list (list pyval)) (kwargs : gmap string Z) (s : Socket) :
  Forall (fun t => 2 <= length t) msg_tuples ->
  Exists (fun t => length t = 2) msg_tuples ->
  send_message_ex T headers msg_tuples kwargs s =
  send_message_ex T headers (map (take 2) msg_tuples) kwargs s.
Proof.
  intros Hall Hex. unfold send_message_ex.
  now rewrite zip_star_take_two.
Qed.

End FurtherExtended.

(** ** What a call leaves alone *)

(** [s'] differs from [s] by at most [n] frames appended to the wire. *)
Definition appends (n : nat) (s s' : Socket) : Prop :=
  pending s' = pending s /\ rcvmore s' = rcvmore s /\
  exists frames, sent s' = sent s ++ frames /\ length frames <= n.

(** [s'] differs from [s] by frames taken from the front of the queue
    (and by the [RCVMORE] option). *)
Definition consumes (s s' : Socket) : Prop :=
  sent s' = sent s /\ exists taken, pending s = taken ++ pending s'.

Lemma appends_refl n s : appends n s s.
Proof.
  repeat split. exists []. split; [now rewrite app_nil_r | simpl; lia].
Qed.

Lemma appends_trans n m s1 s2 s3 :
  appends n s1 s2 -> appends m s2 s3 -> appends (n + m) s1 s3.
Proof.
  intros (Hp1 & Hr1 & f1 & Hs1 & Hn) (Hp2 & Hr2 & f2 & Hs2 & Hm).
  repeat split; [congruence..|].
  exists (f1 ++ f2). split.
  - now rewrite Hs2, Hs1, app_assoc.
  - rewrite length_app. lia.
Qed.

Lemma appends_le n m s s' : n <= m -> appends n s s' -> appends m s s'.
Proof.
  intros Hle (Hp & Hr & f & Hs & Hn). repeat split; try assumption.
  exists f. split; [assumption | lia].
Qed.

Lemma appends_send data flags s : appends 1 s (snd (send data flags s)).
Proof.
  repeat split. eexists. split; [reflexivity | simpl; lia].
Qed.

Lemma appends_send_parts parts flags s :
  appends (length parts) s (snd (send_parts parts flags s)).
Proof.
  destruct parts as [|p parts]; [apply appends_refl|].
  rewrite send_parts_spec by discriminate. repeat split.
  eexists. split; [reflexivity|]. now rewrite mark_length.
Qed.

Lemma appends_send_multipart msg_parts flags s :
  appends (length msg_parts) s (snd (send_multipart msg_parts flags s)).
Proof.
  unfold send_multipart. destruct (mapM as_bytes msg_parts) as [parts|] eqn:E.
  - apply length_mapM in E. rewrite E. apply appends_send_parts.
  - apply appends_refl.
Qed.

Lemma consumes_refl s : consumes s s.
Proof. split; [reflexivity | now exists []]. Qed.

Lemma consumes_trans s1 s2 s3 : consumes s1 s2 -> consumes s2 s3 -> consumes s1 s3.
Proof.
  intros (Hs1 & t1 & Hp1) (Hs2 & t2 & Hp2). split; [congruence|].
  exists (t1 ++ t2). now rewrite Hp1, Hp2, app_assoc.
Qed.

(** A computation that only takes frames off the queue. *)
Definition Reader {A} (m : M A) : Prop := forall s, consumes s (snd (m s)).

Lemma Reader_ret {A} (a : A) : Reader (mret a : M A).
Proof. intros s. apply consumes_refl. Qed.

Lemma Reader_raise {A} e : Reader (raise e : M A).
Proof. intros s. apply consumes_refl. Qed.

Lemma Reader_lift {A} (r : exn + A) : Reader (lift r).
Proof. intros s. apply consumes_refl. Qed.

Lemma Reader_bind {A B} (m : M A) (f : A -> M B) :
  Reader m -> (forall a, Reader (f a)) -> Reader (m ≫= f).
Proof.
  intros Hm Hf s. rewrite run_bind. specialize (Hm s).
  destruct (m s) as [[e|a] s1]; cbn [snd] in *; [assumption|].
  eapply consumes_trans; [exact Hm | apply Hf].
Qed.

Lemma Reader_recv flags : Reader (recv flags).
Proof.
  intros [snt [|f q] rm]; cbn; [apply consumes_refl|].
  split; [reflexivity | now exists [f]].
Qed.

Lemma Reader_getsockopt : Reader getsockopt_RCVMORE.
Proof. intros s. apply consumes_refl. Qed.

Create HintDb reader.
#[global] Hint Resolve Reader_ret Reader_raise Reader_lift Reader_recv
  Reader_getsockopt : reader.

Lemma Reader_recv_while_more fuel flags : Reader (recv_while_more fuel flags).
Proof.
  induction fuel as [|fuel IH]; cbn [recv_while_more]; [auto with reader|].
  apply Reader_bind; [auto with reader|]. intros [|]; [|auto with reader].
  apply Reader_bind; [auto with reader|]. intros part.
  apply Reader_bind; [exact IH|]. auto with reader.
Qed.

Lemma Reader_recv_multipart flags : Reader (recv_multipart flags).
Proof.
  intros s. unfold recv_multipart.
  apply (Reader_bind (recv flags)); [auto with reader|]. intros part.
  apply Reader_bind; [apply Reader_recv_while_more | auto with reader].
Qed.

Section FurtherFrames.
Context `{codec : TextCodec}.

Lemma Reader_recv_string flags : Reader (recv_string flags).
Proof.
  unfold recv_string. apply Reader_bind; [auto with reader|].
  intros b. destruct (utf8_decode b); auto with reader.
Qed.

Lemma Reader_recv_message flags : Reader (recv_message flags).
Proof.
  unfold recv_message.
  apply Reader_bind; [apply Reader_recv_string|]. intros topic.
  apply Reader_bind; [auto with reader|]. intros m.
  apply Reader_bind; [destruct m; [apply Reader_recv_string | auto with reader]|].
  intros text.
  apply Reader_bind.
  { destruct (String.eqb text EmptyString); [auto with reader|].
    unfold jsonapi_loads. destruct (json_loads text); auto with reader. }
  intros v. apply Reader_bind; [auto with reader|]. intros m'.
  apply Reader_bind; [destruct m'; [apply Reader_recv_multipart | auto with reader]|].
  intros message. apply Reader_bind; auto with reader.
Qed.

(** X12.  The sending methods only append to the wire: whatever the
    arguments and whether they return or raise, [send_message] and
    [send_message_ex] leave the frames already sent, the pending frames
    and the [RCVMORE] option as they were, and add at most two frames
    more than there are parts (or tuples). *)
Theorem sending_only_appends (T : string) (headers : headers_arg)
    (kwargs : gmap string Z) (s : Socket) :
  (forall msg_parts,
     appends (length msg_parts + 2) s (snd (send_message T headers msg_parts kwargs s))) /\
  (forall msg_tuples,
     appends (length msg_tuples + 2) s
       (snd (send_message_ex T headers msg_tuples kwargs s))).
Proof.
  assert (forall headers msg_parts,
            appends (length msg_parts + 2) s
              (snd (send_message T headers msg_parts kwargs s))) as Hplain.
  { clear headers. intros headers msg_parts. unfold send_message.
    destruct (bool_decide (delete "flags" kwargs = ∅)); cbn [negb];
      [|apply appends_refl].
    rewrite run_bind. unfold send_string, zmq_send_string.
    set (flags := default 0%Z (kwargs !! "flags")).
    pose proof (appends_send (utf8_encode T) (Z.lor flags SNDMORE) s) as H1.
    destruct (send (utf8_encode T) (Z.lor flags SNDMORE) s) as [[e|[]] s1] eqn:E1;
      cbn [snd] in *; [eapply appends_le; [|exact H1]; lia|].
    rewrite run_bind. unfold send_json.
    destruct (json_dumps _) as [text|]; [|eapply appends_le; [|exact H1]; lia].
    match goal with |- context [send ?d ?f s1] =>
      pose proof (appends_send d f s1) as H2;
      destruct (send d f s1) as [[e|[]] s2] eqn:E2
    end; cbn [snd] in *.
    { eapply appends_le; [|exact (appends_trans _ _ _ _ _ H1 H2)]. lia. }
    destruct msg_parts as [|part msg_parts].
    - rewrite run_ret. cbn [snd].
      eapply appends_le; [|exact (appends_trans _ _ _ _ _ H1 H2)]. lia.
    - pose proof (appends_send_multipart (part :: msg_parts) flags s2) as H3.
      eapply appends_le;
        [|exact (appends_trans _ _ _ _ _ (appends_trans _ _ _ _ _ H1 H2) H3)]. lia. }
  split; [apply Hplain|].
  intros msg_tuples. unfold send_message_ex.
  destruct (zip_star msg_tuples) as [|types [|msg_parts [|c cols]]] eqn:Ez;
    try apply appends_refl.
  assert (length msg_parts <= length msg_tuples) as Hlen.
  { unfold zip_star in Ez. destruct msg_tuples as [|row rows]; [discriminate|].
    destruct (length row) as [|[|fuel]]; [discriminate| |]; cbn [zip_columns] in Ez.
    - destruct (mapM head (row :: rows)); discriminate.
    - destruct (mapM head (row :: rows)) as [c0|]; [|discriminate].
      destruct (mapM head (map tail (row :: rows))) as [c1|] eqn:E1; [|discriminate].
      apply length_mapM in E1. rewrite length_map in E1.
      inversion Ez. subst. lia. }
  eapply appends_le; [|apply Hplain]. lia.
Qed.

(** X13.  The receiving methods only read: whatever is pending and
    whether they return or raise, [recv_message] and [recv_message_ex]
    send nothing, and the frames left pending are a tail of the frames
    that were pending. *)
Theorem receiving_only_consumes (flags : Z) (s : Socket) :
  consumes s (snd (recv_message flags s)) /\
  consumes s (snd (recv_message_ex flags s)).
Proof.
  split; [apply Reader_recv_message|].
  unfold recv_message_ex.
  apply (Reader_bind (recv_message flags)); [apply Reader_recv_message|].
  intros [[topic headers] message]. apply Reader_bind; auto with reader.
Qed.

End FurtherFrames.

(** ** The further properties on concrete messages *)

(** X1 on headers that hold a byte string. *)
Lemma unserialisable_headers_leave_topic_frame_witness :
  send_message (codec := reference_codec) "t" (ADict [("raw", VBytes (ascii_bytes "x"))])
    [VBytes (ascii_bytes "p")] ∅ socket0 =
  (inl TypeError, MkSocket (sent socket0 ++ [Frame (Reference.encode "t") true]) [] false).
Proof.
  exact (unserialisable_headers_leave_topic_frame (codec := reference_codec) "t"
           (ADict [("raw", VBytes (ascii_bytes "x"))]) [VBytes (ascii_bytes "p")] ∅ socket0
           (delete_empty _) eq_refl).
Defined.

(** X2 on a text given where a byte string is expected. *)
Lemma wrong_typed_part_leaves_two_frames_witness :
  send_message (codec := reference_codec) "t" ANone
    [VBytes (ascii_bytes "p"); VStr "q"] ∅ socket0 =
  (inl TypeError,
   MkSocket
     (sent socket0 ++ [Frame (Reference.encode "t") true; Frame (Reference.encode "{}") true])
     [] false).
Proof.
  refine (wrong_typed_part_leaves_two_frames (codec := reference_codec) "t" ANone
            [VBytes (ascii_bytes "p"); VStr "q"] ∅ socket0 "{}"
            (delete_empty _) eq_refl _).
  right. left. reflexivity.
Defined.

(** X3 on a non-blocking send of two parts. *)
Lemma wire_layout_witness :
  exists text frames,
    Reference.dumps (VDict (Headers_dict (Headers_new sample_headers))) = Some text /\
    send_message (codec := reference_codec) "t" (ADict sample_headers)
      (map VBytes [ascii_bytes "a"; ascii_bytes "b"]) {["flags" := NOBLOCK]} socket0 =
      (inr tt, MkSocket (sent socket0 ++ frames) (pending socket0) (rcvmore socket0)) /\
    map payload frames =
      Reference.encode "t" :: Reference.encode text :: [ascii_bytes "a"; ascii_bytes "b"] /\
    forall i f, frames !! i = Some f ->
                more f = bool_decide (i + 1 < length frames).
Proof.
  refine (wire_layout (codec := reference_codec) "t" sample_headers
            [ascii_bytes "a"; ascii_bytes "b"] {["flags" := NOBLOCK]} socket0
            eq_refl (delete_singleton_eq _ _) eq_refl).
Defined.

(** A [Headers] object with one entry. *)
Definition source_headers : Headers := MkHeaders [("X-Source", VStr "sensor")].

(** X4 on a [Headers] object and a non-blocking send. *)
Lemma round_trip_any_headers_witness :
  exists frames,
    send_message (codec := reference_codec) "t" (AHeaders source_headers)
      (map VBytes [ascii_bytes "a"]) {["flags" := NOBLOCK]} socket0 =
      (inr tt, MkSocket (sent socket0 ++ frames) (pending socket0) (rcvmore socket0)) /\
    forall flags r q,
      pending r = frames ++ q ->
      recv_message (codec := reference_codec) flags r =
        (inr ("t", headers_sent (AHeaders source_headers), [ascii_bytes "a"]),
         MkSocket (sent r) q false).
Proof.
  refine (round_trip_any_headers (codec := reference_codec) "t" (AHeaders source_headers)
            [ascii_bytes "a"] {["flags" := NOBLOCK]} socket0
            eq_refl _ (delete_singleton_eq _ _) eq_refl).
  apply NoDup_singleton.
Defined.

(** X5 on two small messages. *)
Lemma two_messages_in_order_witness :
  exists frames,
    (_ ← send_message (codec := reference_codec) "a" (ADict sample_headers)
           (map VBytes [ascii_bytes "1"]) ∅;
     send_message (codec := reference_codec) "b" (ADict []) (map VBytes []) ∅) socket0 =
      (inr tt, MkSocket (sent socket0 ++ frames) (pending socket0) (rcvmore socket0)) /\
    forall flags r q,
      pending r = frames ++ q ->
      (first ← recv_message (codec := reference_codec) flags;
       second ← recv_message (codec := reference_codec) flags;
       mret (first, second)) r =
        (inr (("a", Headers_new sample_headers, [ascii_bytes "1"]),
              ("b", Headers_new [], [])),
         MkSocket (sent r) q false).
Proof.
  exact (two_messages_in_order (codec := reference_codec) "a" "b" sample_headers []
           [ascii_bytes "1"] [] socket0 eq_refl eq_refl).
Defined.

(** X6 on two messages, the first sent with [flags=zmq.SNDMORE]. *)
Lemma sndmore_joins_next_message_witness :
  exists text2 frames,
    Reference.dumps (VDict (Headers_dict (Headers_new []))) = Some text2 /\
    (_ ← send_message (codec := reference_codec) "a" (ADict sample_headers)
           (map VBytes [ascii_bytes "1"]) {["flags" := SNDMORE]};
     send_message (codec := reference_codec) "b" (ADict [])
       (map VBytes [ascii_bytes "2"]) ∅) socket0 =
      (inr tt, MkSocket (sent socket0 ++ frames) (pending socket0) (rcvmore socket0)) /\
    forall flags r q,
      pending r = frames ++ q ->
      recv_message (codec := reference_codec) flags r =
        (inr ("a", Headers_new sample_headers,
              [ascii_bytes "1"] ++
              Reference.encode "b" :: Reference.encode text2 :: [ascii_bytes "2"]),
         MkSocket (sent r) q false).
Proof.
  exact (sndmore_joins_next_message (codec := reference_codec) "a" "b" sample_headers []
           [ascii_bytes "1"] [ascii_bytes "2"] SNDMORE socket0 eq_refl eq_refl eq_refl).
Defined.


Definition sample_pairs : list (string * bytes) :=
  [("text/plain", ascii_bytes "hi"); ("application/json", ascii_bytes "{}")].

(** X8 on two pairs, with a keyword that is refused. *)
Lemma send_message_ex_is_send_message_witness :
  send_message_ex (codec := reference_codec) "alerts" ANone (map as_tuple sample_pairs)
    {["copy" := 0%Z]} socket0 =
  send_message (codec := reference_codec) "alerts"
    (ADict (Headers_dict
              (Headers_setitem (Headers_or_empty ANone) CONTENT_TYPE
                 (VList (map (fun pair => VStr (fst pair)) sample_pairs)))))
    (map VBytes (map snd sample_pairs)) {["copy" := 0%Z]} socket0.
Proof.
  refine (send_message_ex_is_send_message (codec := reference_codec) "alerts" ANone
            sample_pairs {["copy" := 0%Z]} socket0 _).
  discriminate.
Defined.

(** X9 on two pairs. *)
Lemma plain_receive_of_extended_send_witness :
  exists frames,
    send_message_ex (codec := reference_codec) "alerts" (ADict sample_headers)
      (map as_tuple sample_pairs) ∅ socket0 =
      (inr tt, MkSocket (sent socket0 ++ frames) (pending socket0) (rcvmore socket0)) /\
    length frames = length sample_pairs + 2 /\
    forall flags r q,
      pending r = frames ++ q ->
      recv_message (codec := reference_codec) flags r =
        (inr ("alerts",
              Headers_setitem (Headers_new sample_headers) CONTENT_TYPE
                (VList (map (fun pair => VStr (fst pair)) sample_pairs)),
              map snd sample_pairs),
         MkSocket (sent r) q false).
Proof.
  refine (plain_receive_of_extended_send (codec := reference_codec) "alerts"
            sample_headers sample_pairs socket0 eq_refl _).
  discriminate.
Defined.

(** X10 on the Content-Type ["text/plain"] and one part: the part is
    paired with the letter t. *)
Lemma string_content_type_is_zipped_by_character_witness :
  exists frames,
    send_message (codec := reference_codec) "t" (ADict [("Content-Type", VStr "text/plain")])
      (map VBytes [ascii_bytes "hi"]) ∅ socket0 =
      (inr tt, MkSocket (sent socket0 ++ frames) (pending socket0) (rcvmore socket0)) /\
    forall flags r q,
      pending r = frames ++ q ->
      recv_message_ex (codec := reference_codec) flags r =
        (inr ("t", Headers_new [("Content-Type", VStr "text/plain")],
              zip (map (fun c => VStr (String c EmptyString))
                     (list_ascii_of_string "text/plain"))
                [ascii_bytes "hi"]),
         MkSocket (sent r) q false).
Proof.
  exact (string_content_type_is_zipped_by_character (codec := reference_codec) "t"
           "text/plain" [("Content-Type", VStr "text/plain")] [ascii_bytes "hi"] socket0
           eq_refl eq_refl).
Defined.

Example one_letter_content_type :
  zip (map (fun c => VStr (String c EmptyString)) (list_ascii_of_string "text/plain"))
    [ascii_bytes "hi"] = [(VStr "t", ascii_bytes "hi")].
Proof. reflexivity. Qed.

(** X11 on a 3-tuple next to a 2-tuple. *)
Lemma extra_tuple_items_are_dropped_witness :
  send_message_ex (codec := reference_codec) "t" (ADict [])
    [[VStr "a"; VBytes (ascii_bytes "x")];
     [VStr "b"; VBytes (ascii_bytes "y"); VBytes (ascii_bytes "z")]] ∅ socket0 =
  send_message_ex (codec := reference_codec) "t" (ADict [])
    (map (take 2)
       [[VStr "a"; VBytes (ascii_bytes "x")];
        [VStr "b"; VBytes (ascii_bytes "y"); VBytes (ascii_bytes "z")]]) ∅ socket0.
Proof.
  refine (extra_tuple_items_are_dropped (codec := reference_codec) "t" (ADict [])
            [[VStr "a"; VBytes (ascii_bytes "x")];
             [VStr "b"; VBytes (ascii_bytes "y"); VBytes (ascii_bytes "z")]] ∅ socket0 _ _).
  - repeat constructor.
  - left. reflexivity.
Defined.
